(** * PhytoScann: leaf segmentation and severity computation

    A shallow embedding of [src/leaf_analysis.py]:
    - [load_and_process_image] (the segmenter): reads a file, decodes it with
      OpenCV, converts it to HSV and thresholds it into a leaf mask and an
      infected mask;
    - [calculate_severity]: counts the nonzero pixels of both masks, divides
      and classifies the percentage as Low / Moderate / High;
    - [analyze_leaf]: the composition of the two.

    Modelling conventions.
    - A 2-D numpy array is a list of rows; a mask is a 2-D array of integers
      (dtype uint8 in the program); an H x W x 3 image is a 2-D array of
      three-channel pixels.
    - Python exceptions are values of type [exn] (class and [str(e)]), and a
      computation that may raise has type [pyresult A].
    - Python floats are the kernel's binary64 numbers ([PrimFloat.float]), so
      every rounding of the program is present in the model.  The true
      division of two Python integers is the correctly rounded exact quotient.
    - The file system ([open]/[read]) and the OpenCV codec and colour
      conversion ([cv2.imdecode], [cv2.cvtColor]) are parameters of the
      segmenter; [cv2.inRange], the numpy comparison, [astype], [&] and
      [count_nonzero] are written out. *)

From Stdlib Require Import ZArith List Ascii String Bool Lia Floats Permutation.
Import ListNotations.

Local Open Scope string_scope.
Local Open Scope list_scope.
Local Open Scope Z_scope.

(** ** Python exceptions *)

Inductive exn_class : Type :=
  | Exception
  | ValueError
  | ZeroDivisionError
  | OSError
  | cv2_error.

(** An exception object: its class and its message, [str(e)]. *)
Record exn : Type := mkExn { exn_type : exn_class; str : string }.

Inductive pyresult (A : Type) : Type :=
  | Return (a : A)
  | Raise (e : exn).
Arguments Return {A} a.
Arguments Raise {A} e.

Definition bind {A B : Type} (c : pyresult A) (k : A -> pyresult B) : pyresult B :=
  match c with
  | Return a => k a
  | Raise e => Raise e
  end.

(** [try: c  except Exception as e: h e] (every class above is a subclass of
    Python's [Exception]). *)
Definition try_except {A : Type} (c : pyresult A) (h : exn -> pyresult A) : pyresult A :=
  match c with
  | Return a => Return a
  | Raise e => h e
  end.

Declare Scope py_scope.
Delimit Scope py_scope with py.
Notation "x <- c ;; k" := (bind c (fun x => k))
  (at level 61, c at next level, right associativity) : py_scope.
Notation "' pat <- c ;; k" := (bind c (fun x => match x with pat => k end))
  (at level 61, pat pattern, c at next level, right associativity) : py_scope.

(** ** Arrays *)

(** A 2-D array, row by row. *)
Definition array2 (A : Type) : Type := list (list A).

(** A mask: a 2-D array of integers; a pixel is true when it is nonzero. *)
Definition ndarray : Type := array2 Z.

(** A three-channel pixel, channels in storage order. *)
Record pixel : Type := mkPixel { ch0 : Z; ch1 : Z; ch2 : Z }.

Definition image : Type := array2 pixel.

(** [a[i, j]], [None] outside the array. *)
Definition pix_at {A : Type} (a : array2 A) (i j : nat) : option A :=
  match nth_error a i with
  | Some row => nth_error row j
  | None => None
  end.

(** Pointwise operation on one array and on two arrays of the same shape. *)
Definition map_px {A B : Type} (f : A -> B) (a : array2 A) : array2 B :=
  map (map f) a.

Fixpoint zip_with {A B C : Type} (f : A -> B -> C) (l1 : list A) (l2 : list B) : list C :=
  match l1, l2 with
  | x :: l1', y :: l2' => f x y :: zip_with f l1' l2'
  | _, _ => []
  end.

Definition map2_px {A B C : Type} (f : A -> B -> C) (a : array2 A) (b : array2 B) : array2 C :=
  zip_with (zip_with f) a b.

(** Python truthiness of an array element. *)
Definition truthy (v : Z) : bool := negb (v =? 0).

(** [saturation > 25]: a boolean array. *)
Definition gt_scalar (a : ndarray) (t : Z) : array2 bool :=
  map_px (fun v => t <? v) a.

(** [.astype(np.uint8)] of a boolean array: True is 1, False is 0. *)
Definition astype_uint8 (a : array2 bool) : ndarray :=
  map_px (fun b : bool => if b then 1 else 0) a.

(** [hsv[:, :, 1]] *)
Definition channel1 (a : image) : ndarray := map_px ch1 a.

(** [cv2.inRange(src, lowerb, upperb)]: 255 where every channel lies between
    the bounds, both inclusive, 0 elsewhere. *)
Definition in_bounds (lowerb upperb p : pixel) : bool :=
  (ch0 lowerb <=? ch0 p) && (ch0 p <=? ch0 upperb) &&
  (ch1 lowerb <=? ch1 p) && (ch1 p <=? ch1 upperb) &&
  (ch2 lowerb <=? ch2 p) && (ch2 p <=? ch2 upperb).

Definition inRange (src : image) (lowerb upperb : pixel) : ndarray :=
  map_px (fun p => if in_bounds lowerb upperb p then 255 else 0) src.

(** [a & b] on two uint8 arrays of the same shape (the only use in the
    program is on two arrays derived pointwise from the same [hsv]). *)
Definition bitwise_and (a b : ndarray) : ndarray := map2_px Z.land a b.

(** [np.nonzero], as the list of the positions holding a nonzero value. *)
Fixpoint nonzero_cols (j : nat) (row : list Z) : list nat :=
  match row with
  | [] => []
  | v :: row' =>
      if truthy v then j :: nonzero_cols (S j) row' else nonzero_cols (S j) row'
  end.

Fixpoint nonzero_from (i : nat) (a : ndarray) : list (nat * nat) :=
  match a with
  | [] => []
  | row :: a' => map (pair i) (nonzero_cols 0 row) ++ nonzero_from (S i) a'
  end.

Definition nonzero (a : ndarray) : list (nat * nat) := nonzero_from 0 a.

(** [np.count_nonzero(a)]: a Python integer. *)
Definition count_nonzero (a : ndarray) : Z :=
  fold_right (fun row acc => Z.of_nat (List.length (filter truthy row)) + acc) 0 a.

(** ** Python numbers *)

(** A Python integer seen as an (unnormalised) binary floating-point datum
    of value [z * 2^0]. *)
Definition Z2SF (z : Z) : spec_float :=
  match z with
  | Z0 => S754_zero false
  | Zpos p => S754_finite false p 0
  | Zneg p => S754_finite true p 0
  end.

(** [a / b] on two Python integers: the binary64 number nearest to the exact
    quotient (ties to even); [ZeroDivisionError] when [b] is zero.  Python's
    [OverflowError], for a quotient beyond the binary64 range, needs an
    operand above [2^1023], more than the number of elements of any numpy
    array, and is left out: the division then gives [infinity] here. *)
Definition truediv (a b : Z) : pyresult float :=
  if b =? 0 then Raise (mkExn ZeroDivisionError "division by zero")
  else Return (SF2Prim (SF64div (Z2SF a) (Z2SF b))).

(** ** The severity calculator *)

Record SeverityResult : Type :=
  mkResult { percentage : float; level : string }.

Definition empty_leaf_error : exn :=
  mkExn ValueError "The leaf mask is empty, unable to calculate severity.".

Definition calculate_severity (leaf_mask infected_mask : ndarray)
  : pyresult SeverityResult :=
  let total_leaf_pixels := count_nonzero leaf_mask in
  if total_leaf_pixels =? 0 then Raise empty_leaf_error
  else
    let infected_pixels := count_nonzero infected_mask in
    (q <- truediv infected_pixels total_leaf_pixels ;;
     let severity_percentage := (q * 100)%float in
     let severity_level :=
       if (severity_percentage <? 10)%float then "Low"
       else if (severity_percentage <? 30)%float then "Moderate"
       else "High" in
     Return (mkResult severity_percentage severity_level))%py.

(** ** The segmenter *)

Inductive ColorConversionCode : Type := COLOR_BGR2RGB | COLOR_RGB2HSV.

Definition lower_hue : pixel := mkPixel 15 50 50.
Definition upper_hue : pixel := mkPixel 30 255 255.

Section Segmenter.

(** [open(path, 'rb')] followed by [f.read()]: the bytes of the file, or
    the exception raised by the operating system. *)
Variable read_file : string -> pyresult (list Z).

(** [cv2.imdecode(buf, cv2.IMREAD_COLOR)]: a three-channel image, [None]
    when the buffer cannot be decoded, or an OpenCV exception. *)
Variable imdecode : list Z -> pyresult (option image).

(** [cv2.cvtColor(src, code)] on a three-channel 8-bit image. *)
Variable cvtColor : image -> ColorConversionCode -> image.

Definition load_and_process_image (image_path : string)
  : pyresult (image * ndarray * ndarray) :=
  try_except
    (image_data <- read_file image_path ;;
     image <- imdecode image_data ;;
     match image with
     | None =>
         Raise (mkExn ValueError ("Unable to load image from: " ++ image_path)%string)
     | Some image =>
         let image := cvtColor image COLOR_BGR2RGB in
         let hsv := cvtColor image COLOR_RGB2HSV in
         let saturation := channel1 hsv in
         let leaf_mask := gt_scalar saturation 25 in
         let leaf_mask := astype_uint8 leaf_mask in
         let infected_mask := inRange hsv lower_hue upper_hue in
         let infected_mask := bitwise_and infected_mask leaf_mask in
         Return (image, leaf_mask, infected_mask)
     end)%py
    (fun e => Raise (mkExn Exception ("Error processing image: " ++ str e)%string)).

Definition analyze_leaf (filepath : string) : pyresult SeverityResult :=
  ('(image, leaf_mask, infected_mask) <- load_and_process_image filepath ;;
   severity_data <- calculate_severity leaf_mask infected_mask ;;
   Return severity_data)%py.

End Segmenter.

(** ** The upload endpoint ([src/app.py]) *)

(** An uploaded file part ([werkzeug]'s [FileStorage]): the name sent by the
    client and the bytes of the part. *)
Record FileStorage : Type := mkFile { filename : string; stream : list Z }.

(** [request.files]: the file parts of the form, by field name. *)
Definition MultiDict : Type := list (string * FileStorage).

(** [request.files[key]], the first part with that field name; [None] when
    [key not in request.files]. *)
Fixpoint get_file (key : string) (files : MultiDict) : option FileStorage :=
  match files with
  | [] => None
  | (k, f) :: files' => if String.eqb k key then Some f else get_file key files'
  end.

(** What a view returns: [jsonify(body), status] (200 when no status is
    given), the body being a dictionary of strings. *)
Record Response : Type := mkResponse { json : list (string * string); status : Z }.

(** [os.path.join(a, b)] of [posixpath]. *)
Definition startswith_sep (b : string) : bool :=
  match b with
  | String c _ => Ascii.eqb c "/"%char
  | EmptyString => false
  end.

Fixpoint endswith_sep (a : string) : bool :=
  match a with
  | EmptyString => false
  | String c EmptyString => Ascii.eqb c "/"%char
  | String _ a' => endswith_sep a'
  end.

Definition os_path_join (a b : string) : string :=
  if startswith_sep b then b
  else if String.eqb a "" || endswith_sep a then (a ++ b)%string
  else (a ++ "/" ++ b)%string.

Section Upload.

(** The state of the file system. *)
Variable World : Type.

(** [os.makedirs(name, exist_ok=True)]: the new state, or the exception. *)
Variable makedirs : string -> World -> pyresult World.

(** [file.save(dst)]: the new state, or the exception. *)
Variable save : FileStorage -> string -> World -> pyresult World.

(** [open(path, 'rb')] followed by [f.read()] in a given state. *)
Variable read_file : World -> string -> pyresult (list Z).

Variable imdecode : list Z -> pyresult (option image).
Variable cvtColor : image -> ColorConversionCode -> image.

(** [f"{x:.2f}"] on a float. *)
Variable format_2f : float -> string.

(** The view of [POST /upload]: the response and the state of the file
    system after it, or the exception that escapes the view. *)
Definition upload_file (request_files : MultiDict) (w : World)
  : pyresult (Response * World) :=
  match get_file "file" request_files with
  | None => Return (mkResponse [("error", "No file part")] 400, w)
  | Some file =>
      if String.eqb (filename file) ""
      then Return (mkResponse [("error", "No selected file")] 400, w)
      else
        let filepath := os_path_join "uploads" (filename file) in
        (w <- makedirs "uploads" w ;;
         w <- save file filepath w ;;
         response <-
           try_except
             (severity_data <- analyze_leaf (read_file w) imdecode cvtColor filepath ;;
              Return
                (mkResponse
                   [("severity",
                     (format_2f (percentage severity_data)
                        ++ "% (" ++ level severity_data ++ ")")%string);
                    ("image_url", ("/uploads/" ++ filename file)%string)]
                   200))
             (fun e => Return (mkResponse [("error", str e)] 500)) ;;
         Return (response, w))%py
  end.

End Upload.

(** A file system made of regular files, as a list of paths with their
    contents, the most recently written first: an instance of the parameters
    of the endpoint on which it can be run. *)
Definition FileSystem : Type := list (string * list Z).

Definition fs_makedirs (name : string) (w : FileSystem) : pyresult FileSystem :=
  Return w.

Definition fs_save (file : FileStorage) (dst : string) (w : FileSystem)
  : pyresult FileSystem :=
  Return ((dst, stream file) :: w).

Fixpoint fs_read (w : FileSystem) (path : string) : pyresult (list Z) :=
  match w with
  | [] => Raise (mkExn OSError "[Errno 2] No such file or directory")
  | (name, content) :: w' =>
      if String.eqb name path then Return content else fs_read w' path
  end.

(** ** Vocabulary of the specification *)

(** The mask contains no true pixel. *)
Definition no_true_pixel (a : ndarray) : Prop :=
  forall i j v, pix_at a i j = Some v -> v = 0.

(** The mask contains at least one true pixel. *)
Definition has_true_pixel (a : ndarray) : Prop :=
  exists i j v, pix_at a i j = Some v /\ v <> 0.

(** [m] has the shape of [src] and is true exactly at the pixels of [src]
    that satisfy [P]. *)
Definition mask_of {A : Type} (P : A -> Prop) (src : array2 A) (m : ndarray) : Prop :=
  forall i j,
    match pix_at src i j, pix_at m i j with
    | Some p, Some v => v <> 0 <-> P p
    | None, None => True
    | _, _ => False
    end.

(** Every pixel that is true in [a] is true in [b]. *)
Definition mask_subset (a b : ndarray) : Prop :=
  forall i j v, pix_at a i j = Some v -> v <> 0 ->
                exists w, pix_at b i j = Some w /\ w <> 0.

(** Every value of the array is one of [lo] and [hi]. *)
Definition two_valued (lo hi : Z) (a : ndarray) : Prop :=
  Forall (Forall (fun v => v = lo \/ v = hi)) a.

(** The intersection as the specification words it: the boolean AND of the
    truth values of the two masks, pixel by pixel. *)
Definition boolean_and (a b : ndarray) : array2 bool :=
  map2_px (fun x y => truthy x && truthy y) a b.

(** The two masks are true at the same positions. *)
Definition same_true_pixels (a b : ndarray) : Prop :=
  forall i j,
    (exists v, pix_at a i j = Some v /\ v <> 0) <->
    (exists w, pix_at b i j = Some w /\ w <> 0).


(** The pixels that [cv2.inRange] selects between [lower_hue] and
    [upper_hue]: hue in [15,30], saturation and value in [50,255]. *)
Definition in_hsv_box (p : pixel) : Prop :=
  (15 <= ch0 p <= 30) /\ (50 <= ch1 p <= 255) /\ (50 <= ch2 p <= 255).

(** The number of true pixels of a mask: the number of its nonzero
    positions. *)
Definition true_pixels (a : ndarray) : Z := Z.of_nat (List.length (nonzero a)).

(** The binary64 number [x] is finite and stands for exactly the rational
    number [num / den] (for [den > 0]): with mantissa [m], sign [s] and
    exponent [e], the number is [(-1)^s * m * 2^e]. *)
Definition float_is_ratio (x : float) (num den : Z) : Prop :=
  match Prim2SF x with
  | S754_zero _ => num = 0
  | S754_finite s m e =>
      let z := if s then Z.neg m else Z.pos m in
      if 0 <=? e then z * 2 ^ e * den = num else z * den = num * 2 ^ (- e)
  | S754_infinity _ | S754_nan => False
  end.

(** A mask of one row holding [n] true pixels. *)
Definition row_of_ones (n : Z) : ndarray := [repeat 1 (Z.to_nat n)].

(** ** Vocabulary of the floating-point proofs *)

(** The least mantissa not below the number a shift record stands for: the
    mantissa itself when the round and sticky bits are clear, the next one
    otherwise. *)
Definition shr_upper (mrs : shr_record) : Z :=
  shr_m mrs + (if shr_r mrs || shr_s mrs then 1 else 0).

(** [x] is [+0] or a positive binary64 number, in canonical form, that is at
    most [M * 2^E] (for [M * 2^E] in canonical form, numbers compare by
    exponent first and mantissa next). *)
Definition sf_below (M : positive) (E : Z) (x : spec_float) : Prop :=
  x = S754_zero false \/
  exists m e, x = S754_finite false m e /\ bounded prec emax m e = true /\
              (e < E \/ (e = E /\ Zpos m <= Zpos M)).

(** ** Arrays: lookup lemmas *)

Lemma nth_error_zip_with {A B C : Type} (f : A -> B -> C) (l1 : list A) (l2 : list B) (n : nat) :
  nth_error (zip_with f l1 l2) n =
  match nth_error l1 n, nth_error l2 n with
  | Some x, Some y => Some (f x y)
  | _, _ => None
  end.
Proof.
  revert l2 n; induction l1 as [|x l1 IH]; intros [|y l2] [|n]; simpl; trivial.
  destruct (nth_error l1 n); reflexivity.
Qed.

Lemma pix_at_map_px {A B : Type} (f : A -> B) (a : array2 A) (i j : nat) :
  pix_at (map_px f a) i j = option_map f (pix_at a i j).
Proof.
  unfold pix_at, map_px. rewrite nth_error_map.
  destruct (nth_error a i) as [row|]; simpl; [apply nth_error_map | reflexivity].
Qed.

Lemma map_px_map_px {A B C : Type} (f : A -> B) (g : B -> C) (a : array2 A) :
  map_px g (map_px f a) = map_px (fun x => g (f x)) a.
Proof.
  unfold map_px. rewrite map_map. apply map_ext. intros row. apply map_map.
Qed.

Lemma pix_at_map2_px {A B C : Type} (f : A -> B -> C) (a : array2 A) (b : array2 B) (i j : nat) :
  pix_at (map2_px f a b) i j =
  match pix_at a i j, pix_at b i j with
  | Some x, Some y => Some (f x y)
  | _, _ => None
  end.
Proof.
  unfold pix_at, map2_px. rewrite nth_error_zip_with.
  destruct (nth_error a i) as [ra|], (nth_error b i) as [rb|]; trivial.
  - apply nth_error_zip_with.
  - destruct (nth_error ra j); reflexivity.
Qed.

(** ** Counting: [count_nonzero] is the number of true positions *)

Lemma truthy_true (v : Z) : truthy v = true <-> v <> 0.
Proof. unfold truthy. rewrite negb_true_iff, Z.eqb_neq. tauto. Qed.

Lemma truthy_false (v : Z) : truthy v = false <-> v = 0.
Proof. unfold truthy. rewrite negb_false_iff. apply Z.eqb_eq. Qed.

Lemma nonzero_cols_length (row : list Z) (j : nat) :
  List.length (nonzero_cols j row) = List.length (filter truthy row).
Proof.
  revert j; induction row as [|v row IH]; intros j; simpl; trivial.
  destruct (truthy v); simpl; rewrite IH; reflexivity.
Qed.

Lemma count_nonzero_from (a : ndarray) (i : nat) :
  count_nonzero a = Z.of_nat (List.length (nonzero_from i a)).
Proof.
  revert i; induction a as [|row a IH]; intros i; simpl; trivial.
  rewrite length_app, length_map, nonzero_cols_length, Nat2Z.inj_add.
  rewrite <- (IH (S i)). reflexivity.
Qed.

Lemma count_nonzero_nonzero (a : ndarray) :
  count_nonzero a = Z.of_nat (List.length (nonzero a)).
Proof. apply count_nonzero_from. Qed.

Lemma count_nonzero_nonneg (a : ndarray) : 0 <= count_nonzero a.
Proof. rewrite count_nonzero_nonzero. lia. Qed.

Lemma In_nonzero_cols (row : list Z) (j0 j : nat) :
  In j (nonzero_cols j0 row) <->
  (j0 <= j)%nat /\ exists v, nth_error row (j - j0) = Some v /\ v <> 0.
Proof.
  revert j0; induction row as [|v row IH]; intros j0; simpl.
  - split; [tauto|]. intros [_ [v [H _]]]. destruct (j - j0)%nat; discriminate.
  - assert (Hstep : In j (nonzero_cols (S j0) row) <->
                    (j0 < j)%nat /\ exists w, nth_error row (j - j0 - 1) = Some w /\ w <> 0).
    { rewrite IH. replace (j - S j0)%nat with (j - j0 - 1)%nat by lia.
      split; intros [H1 H2]; (split; [lia | exact H2]). }
    destruct (truthy v) eqn:Hv.
    + simpl. rewrite Hstep. apply truthy_true in Hv. split.
      * intros [->|[Hlt [w Hw]]].
        -- split; [lia|]. exists v. rewrite Nat.sub_diag. simpl. tauto.
        -- split; [lia|]. exists w. destruct (j - j0)%nat as [|k] eqn:E; [lia|].
           simpl. replace k with (S k - 1)%nat by lia. exact Hw.
      * intros [Hle [w [Hw Hnz]]].
        destruct (j - j0)%nat as [|k] eqn:E.
        -- left; lia.
        -- right. split; [lia|]. exists w. simpl in Hw.
           replace (S k - 1)%nat with k by lia. tauto.
    + rewrite Hstep. apply truthy_false in Hv. split.
      * intros [Hlt [w Hw]]. split; [lia|]. exists w.
        destruct (j - j0)%nat as [|k] eqn:E; [lia|].
        simpl. replace k with (S k - 1)%nat by lia. exact Hw.
      * intros [Hle [w [Hw Hnz]]].
        destruct (j - j0)%nat as [|k] eqn:E.
        -- simpl in Hw. congruence.
        -- split; [lia|]. exists w. simpl in Hw.
           replace (S k - 1)%nat with k by lia. tauto.
Qed.

Lemma In_nonzero_from (a : ndarray) (i0 i j : nat) :
  In (i, j) (nonzero_from i0 a) <->
  (i0 <= i)%nat /\ exists v, pix_at a (i - i0) j = Some v /\ v <> 0.
Proof.
  revert i0; induction a as [|row a IH]; intros i0; simpl.
  - split; [tauto|]. intros [_ [v [H _]]]. unfold pix_at in H.
    destruct (i - i0)%nat; discriminate.
  - rewrite in_app_iff, in_map_iff, IH. split.
    + intros [[j' [Heq Hin]]|[Hle [v Hv]]].
      * injection Heq as -> ->. apply In_nonzero_cols in Hin.
        destruct Hin as [_ Hin]. rewrite Nat.sub_0_r in Hin.
        split; [lia|]. unfold pix_at. rewrite Nat.sub_diag. exact Hin.
      * split; [lia|]. exists v. unfold pix_at in *.
        destruct (i - i0)%nat as [|k] eqn:E; [lia|].
        simpl. replace k with (i - S i0)%nat by lia. exact Hv.
    + intros [Hle [v Hv]]. unfold pix_at in Hv.
      destruct (i - i0)%nat as [|k] eqn:E; simpl in Hv.
      * left. exists j. split; [f_equal; lia|].
        apply In_nonzero_cols. rewrite Nat.sub_0_r. split; [lia|]. exists v; exact Hv.
      * right. split; [lia|]. exists v. unfold pix_at.
        replace (i - S i0)%nat with k by lia. exact Hv.
Qed.

(** A position is listed by [nonzero] exactly when the array holds a nonzero
    value there. *)
Lemma In_nonzero (a : ndarray) (i j : nat) :
  In (i, j) (nonzero a) <-> exists v, pix_at a i j = Some v /\ v <> 0.
Proof.
  unfold nonzero. rewrite In_nonzero_from, Nat.sub_0_r.
  split; [tauto | intros H; split; [lia | exact H]].
Qed.

Lemma count_nonzero_zero (a : ndarray) : count_nonzero a = 0 <-> no_true_pixel a.
Proof.
  rewrite count_nonzero_nonzero. unfold no_true_pixel. split.
  - intros H i j v Hv. destruct (Z.eq_dec v 0) as [|Hnz]; trivial.
    assert (Hin : In (i, j) (nonzero a)) by (apply In_nonzero; eauto).
    destruct (nonzero a); [contradiction | simpl in H; lia].
  - intros H. destruct (nonzero a) as [|[i j] l] eqn:E; trivial.
    assert (Hin : In (i, j) (nonzero a)) by (rewrite E; left; reflexivity).
    apply In_nonzero in Hin. destruct Hin as [v [Hv Hnz]].
    elim Hnz. eauto.
Qed.

Lemma count_nonzero_pos (a : ndarray) :
  0 < count_nonzero a <-> exists i j v, pix_at a i j = Some v /\ v <> 0.
Proof.
  split.
  - intros H. rewrite count_nonzero_nonzero in H.
    destruct (nonzero a) as [|[i j] l] eqn:E; [simpl in H; lia|].
    assert (Hin : In (i, j) (nonzero a)) by (rewrite E; left; reflexivity).
    apply In_nonzero in Hin. destruct Hin as [v Hv]. eauto.
  - intros [i [j [v [Hv Hnz]]]].
    pose proof (count_nonzero_nonneg a).
    destruct (Z.eq_dec (count_nonzero a) 0) as [E|]; [|lia].
    apply count_nonzero_zero in E. elim Hnz. eauto.
Qed.

(** ** Counting: the listed positions are distinct *)

Lemma NoDup_nonzero_cols (row : list Z) (j : nat) : NoDup (nonzero_cols j row).
Proof.
  revert j; induction row as [|v row IH]; intros j; simpl; [constructor|].
  destruct (truthy v); [|apply IH].
  constructor; [|apply IH].
  rewrite In_nonzero_cols. lia.
Qed.

Lemma NoDup_map_pair (i : nat) (l : list nat) : NoDup l -> NoDup (map (pair i) l).
Proof.
  induction 1 as [|x l Hx _ IH]; simpl; constructor; trivial.
  rewrite in_map_iff. intros [y [Heq Hy]]. injection Heq as ->. contradiction.
Qed.

Lemma NoDup_nonzero_from (a : ndarray) (i : nat) : NoDup (nonzero_from i a).
Proof.
  revert i; induction a as [|row a IH]; intros i; simpl; [constructor|].
  apply NoDup_app; [apply NoDup_map_pair, NoDup_nonzero_cols | apply IH |].
  intros [i' j'] Hin Hin'. apply in_map_iff in Hin. destruct Hin as [j [Heq _]].
  injection Heq as <- _. apply In_nonzero_from in Hin'. lia.
Qed.

Lemma NoDup_nonzero (a : ndarray) : NoDup (nonzero a).
Proof. apply NoDup_nonzero_from. Qed.

Lemma count_nonzero_incl (a b : ndarray) :
  incl (nonzero a) (nonzero b) -> count_nonzero a <= count_nonzero b.
Proof.
  intros H. rewrite !count_nonzero_nonzero. apply inj_le.
  apply NoDup_incl_length; [apply NoDup_nonzero | exact H].
Qed.

Lemma mask_subset_nonzero (a b : ndarray) :
  mask_subset a b <-> incl (nonzero a) (nonzero b).
Proof.
  split.
  - intros H [i j] Hin. apply In_nonzero in Hin. destruct Hin as [v [Hv Hnz]].
    apply In_nonzero. exact (H i j v Hv Hnz).
  - intros H i j v Hv Hnz. apply In_nonzero, (H (i, j)), In_nonzero. eauto.
Qed.

Lemma same_true_pixels_count (a b : ndarray) :
  same_true_pixels a b -> count_nonzero a = count_nonzero b.
Proof.
  intros H. rewrite !count_nonzero_nonzero. f_equal.
  apply Permutation_length, NoDup_Permutation; try apply NoDup_nonzero.
  intros [i j]. rewrite !In_nonzero. apply H.
Qed.

Lemma same_true_pixels_nonzero (a b : ndarray) :
  nonzero a = nonzero b -> same_true_pixels a b.
Proof. intros H i j. rewrite <- !In_nonzero, H. reflexivity. Qed.

(** Storing another nonzero value at the true pixels changes no position. *)
Lemma same_true_pixels_map (f : Z -> Z) (a : ndarray) :
  (forall v, f v = 0 <-> v = 0) -> same_true_pixels a (map_px f a).
Proof.
  intros Hf i j. rewrite pix_at_map_px.
  destruct (pix_at a i j) as [v|]; simpl.
  - split; intros [w [E Hnz]]; injection E as <-; eexists; (split; [reflexivity|]);
      rewrite Hf in *; assumption.
  - split; intros [w [E _]]; discriminate.
Qed.

(** ** Binary64 arithmetic: digits and shifts *)

Lemma fexp64 (x : Z) : fexp prec emax x = Z.max (x - 53) (-1074).
Proof. reflexivity. Qed.

Lemma digits2_pos_bounds (p : positive) :
  2 ^ (Zpos (digits2_pos p) - 1) <= Zpos p < 2 ^ Zpos (digits2_pos p).
Proof.
  induction p as [p IH|p IH|]; simpl digits2_pos.
  - rewrite Pos2Z.inj_succ.
    replace (Z.succ (Zpos (digits2_pos p)) - 1) with (Z.succ (Zpos (digits2_pos p) - 1)) by lia.
    rewrite !Z.pow_succ_r by lia. lia.
  - rewrite Pos2Z.inj_succ.
    replace (Z.succ (Zpos (digits2_pos p)) - 1) with (Z.succ (Zpos (digits2_pos p) - 1)) by lia.
    rewrite !Z.pow_succ_r by lia. lia.
  - simpl. lia.
Qed.

Lemma Zdigits2_nonneg (m : Z) : 0 <= Zdigits2 m.
Proof. destruct m; simpl; lia. Qed.

Lemma Zdigits2_upper (m : Z) : 0 <= m -> m < 2 ^ Zdigits2 m.
Proof.
  destruct m as [|p|p]; intros H; simpl; try lia.
  apply digits2_pos_bounds.
Qed.

Lemma Zdigits2_lower (m : Z) : 0 < m -> 2 ^ (Zdigits2 m - 1) <= m.
Proof.
  destruct m as [|p|p]; intros H; try lia.
  apply digits2_pos_bounds.
Qed.

(** A number below [2^k] has at most [k] digits, a number at least [2^k] has more than [k]. *)
Lemma Zdigits2_le (m k : Z) : 0 <= k -> 0 <= m < 2 ^ k -> Zdigits2 m <= k.
Proof.
  intros Hk [H0 Hm].
  destruct (Z.eq_dec m 0) as [->|Hnz]; [simpl; lia|].
  pose proof (Zdigits2_lower m ltac:(lia)) as Hl.
  destruct (Z_lt_le_dec k (Zdigits2 m)) as [Hlt|]; [|lia].
  assert (2 ^ k <= 2 ^ (Zdigits2 m - 1)) by (apply Z.pow_le_mono_r; lia).
  lia.
Qed.

Lemma Zdigits2_gt (m k : Z) : 0 <= k -> 2 ^ k <= m -> k < Zdigits2 m.
Proof.
  intros Hk Hm.
  assert (0 < 2 ^ k) by (apply Z.pow_pos_nonneg; lia).
  pose proof (Zdigits2_upper m ltac:(lia)) as Hu.
  destruct (Z_lt_le_dec k (Zdigits2 m)) as [|Hle]; [lia|].
  assert (2 ^ Zdigits2 m <= 2 ^ k) by (apply Z.pow_le_mono_r; lia).
  lia.
Qed.

Lemma shr_1_spec (mrs : shr_record) :
  0 <= shr_m mrs ->
  shr_m (shr_1 mrs) = shr_m mrs / 2 /\
  (forall B, shr_upper mrs <= 2 * B -> shr_upper (shr_1 mrs) <= B).
Proof.
  destruct mrs as [m r s]. unfold shr_upper. cbn [shr_m shr_r shr_s].
  intros Hm. rewrite <- Z.div2_div.
  destruct m as [|[p|p|]|p]; try lia; (split; [reflexivity|]);
    intros B; destruct r, s; cbn -[Z.mul Z.add]; lia.
Qed.

Lemma iter_pos_shr_1 (p : positive) (mrs : shr_record) :
  0 <= shr_m mrs ->
  shr_m (iter_pos shr_1 p mrs) = shr_m mrs / 2 ^ Zpos p /\
  (forall B, shr_upper mrs <= 2 ^ Zpos p * B -> shr_upper (iter_pos shr_1 p mrs) <= B).
Proof.
  revert mrs; induction p as [p IH|p IH|]; intros mrs Hm; simpl iter_pos.
  - destruct (shr_1_spec mrs Hm) as [E1 U1].
    assert (H1 : 0 <= shr_m (shr_1 mrs)) by (rewrite E1; apply Z.div_pos; lia).
    destruct (IH _ H1) as [E2 U2].
    assert (H2 : 0 <= shr_m (iter_pos shr_1 p (shr_1 mrs)))
      by (rewrite E2; apply Z.div_pos; [lia | apply Z.pow_pos_nonneg; lia]).
    destruct (IH _ H2) as [E3 U3].
    assert (Hp : 0 < 2 ^ Zpos p) by (apply Z.pow_pos_nonneg; lia).
    assert (Hpow : 2 ^ Zpos p~1 = 2 * (2 ^ Zpos p * 2 ^ Zpos p)).
    { rewrite Pos2Z.inj_xI, Z.add_comm, Z.pow_add_r, Z.pow_1_r by lia.
      rewrite <- Z.pow_add_r by lia. f_equal. f_equal. lia. }
    split.
    + rewrite E3, E2, E1, Hpow, !Z.div_div by lia. reflexivity.
    + intros B HB. apply U3, U2, U1. rewrite Hpow in HB. lia.
  - destruct (IH _ Hm) as [E2 U2].
    assert (H2 : 0 <= shr_m (iter_pos shr_1 p mrs))
      by (rewrite E2; apply Z.div_pos; [lia | apply Z.pow_pos_nonneg; lia]).
    destruct (IH _ H2) as [E3 U3].
    assert (Hp : 0 < 2 ^ Zpos p) by (apply Z.pow_pos_nonneg; lia).
    assert (Hpow : 2 ^ Zpos p~0 = 2 ^ Zpos p * 2 ^ Zpos p).
    { rewrite Pos2Z.inj_xO. rewrite <- Z.pow_add_r by lia. f_equal. lia. }
    split.
    + rewrite E3, E2, Hpow, !Z.div_div by lia. reflexivity.
    + intros B HB. apply U3, U2. rewrite Hpow in HB. lia.
  - destruct (shr_1_spec mrs Hm) as [E1 U1]. split.
    + rewrite E1. reflexivity.
    + intros B HB. apply U1. rewrite Z.pow_1_r in HB. exact HB.
Qed.

(** Shifting right by [n >= 0] positions. *)
Lemma shr_spec (mrs : shr_record) (e n : Z) :
  0 <= shr_m mrs -> 0 <= n ->
  snd (shr mrs e n) = e + n /\
  shr_m (fst (shr mrs e n)) = shr_m mrs / 2 ^ n /\
  (forall B, shr_upper mrs <= 2 ^ n * B -> shr_upper (fst (shr mrs e n)) <= B).
Proof.
  intros Hm Hn. destruct n as [|p|p]; try lia; cbn [shr fst snd].
  - rewrite Z.pow_0_r, Z.div_1_r. split; [lia|]. split; [reflexivity|]. intros B HB. lia.
  - split; [reflexivity|]. apply (iter_pos_shr_1 p mrs Hm).
Qed.

Lemma shr_record_of_loc_m (m : Z) (l : location) : shr_m (shr_record_of_loc m l) = m.
Proof. destruct l as [|[]]; reflexivity. Qed.

Lemma shr_record_of_loc_upper (m : Z) (l : location) :
  shr_upper (shr_record_of_loc m l) = m + match l with loc_Exact => 0 | _ => 1 end.
Proof. destruct l as [|[]]; reflexivity. Qed.

Lemma round_nearest_even_bounds (mrs : shr_record) :
  shr_m mrs <= round_nearest_even (shr_m mrs) (loc_of_shr_record mrs) <= shr_upper mrs.
Proof.
  destruct mrs as [m r s]. unfold shr_upper; simpl.
  destruct r, s; simpl; try lia. destruct (Z.even m); lia.
Qed.

(** ** Binary64 arithmetic: rounding stays below a representable bound *)

Lemma bounded64 (m : positive) (e : Z) :
  bounded prec emax m e = true <->
  Z.max (Zdigits2 (Zpos m) + e - 53) (-1074) = e /\ e <= 971.
Proof.
  unfold bounded, canonical_mantissa. rewrite andb_true_iff, Z.eqb_eq, Z.leb_le, fexp64.
  reflexivity.
Qed.

Lemma binary_round_aux_below (M : positive) (E m e : Z) (l : location) :
  0 <= m ->
  e <= fexp prec emax (Zdigits2 m + e) ->
  e <= E -> -1074 <= E <= 971 ->
  Zpos M < 2 ^ 53 ->
  m + match l with loc_Exact => 0 | _ => 1 end <= Zpos M * 2 ^ (E - e) ->
  sf_below M E (binary_round_aux prec emax false m e l).
Proof.
  intros Hm Hdig HeE HE HM Hup.
  rewrite fexp64 in Hdig.
  set (d := Zdigits2 m) in *.
  assert (Hd0 : 0 <= d) by apply Zdigits2_nonneg.
  assert (Hmd : m < 2 ^ d) by (apply Zdigits2_upper; exact Hm).
  (* the exponent after the first shift is at most E *)
  assert (HdE : d <= 53 + E - e).
  { apply Zdigits2_le; [lia|]. split; [exact Hm|].
    assert (0 < 2 ^ (E - e)) by (apply Z.pow_pos_nonneg; lia).
    replace (53 + E - e) with (53 + (E - e)) by lia.
    rewrite Z.pow_add_r by lia.
    assert (Zpos M * 2 ^ (E - e) < 2 ^ 53 * 2 ^ (E - e))
      by (apply Z.mul_lt_mono_pos_r; assumption).
    destruct l; lia. }
  unfold binary_round_aux, shr_fexp. rewrite !fexp64. fold d.
  set (n := Z.max (d + e - 53) (-1074) - e).
  assert (Hn : 0 <= n) by (unfold n; lia).
  pose proof (shr_spec (shr_record_of_loc m l) e n) as S1.
  rewrite shr_record_of_loc_m, shr_record_of_loc_upper in S1.
  specialize (S1 Hm Hn).
  destruct (shr (shr_record_of_loc m l) e n) as [mrs' e'] eqn:Eshr.
  rewrite fexp64.
  cbn [fst snd] in S1. destruct S1 as [He' [Hm' Hup']].
  assert (HeE' : e' <= E) by (unfold n in He'; lia).
  assert (He'min : -1074 <= e') by (unfold n in He'; lia).
  assert (Hpn : 0 < 2 ^ n) by (apply Z.pow_pos_nonneg; lia).
  (* bound after the first shift *)
  assert (HU' : shr_upper mrs' <= Zpos M * 2 ^ (E - e')).
  { apply Hup'. replace (E - e) with (n + (E - e')) in Hup by lia.
    rewrite Z.pow_add_r in Hup by lia. lia. }
  (* size of the shifted mantissa *)
  assert (Hm'0 : 0 <= shr_m mrs') by (rewrite Hm'; apply Z.div_pos; lia).
  assert (Hm'53 : shr_m mrs' < 2 ^ 53).
  { rewrite Hm'. apply Z.div_lt_upper_bound; [lia|].
    rewrite <- Z.pow_add_r by lia.
    apply Z.lt_le_trans with (1 := Hmd). apply Z.pow_le_mono_r; unfold n; lia. }
  assert (Hm'52 : 2 ^ 52 <= shr_m mrs' \/ e' = -1074).
  { destruct (Z.eq_dec e' (-1074)) as [|Hne]; [right; assumption|left].
    assert (Hnd : n = d - 53) by (unfold n in *; lia).
    assert (Hmpos : 0 < m).
    { destruct (Z.eq_dec m 0) as [Hz|]; [|lia]. subst m. unfold d in *. simpl in *. lia. }
    rewrite Hm'. apply Z.div_le_lower_bound; [lia|].
    rewrite <- Z.pow_add_r by lia.
    replace (n + 52) with (d - 1) by lia. apply Zdigits2_lower. exact Hmpos. }
  pose proof (round_nearest_even_bounds mrs') as Hr.
  set (r := round_nearest_even (shr_m mrs') (loc_of_shr_record mrs')) in *.
  assert (Hr53 : r <= 2 ^ 53) by (unfold shr_upper in Hr; destruct (shr_r mrs' || shr_s mrs'); lia).
  set (dr := Zdigits2 r).
  set (n2 := Z.max (dr + e' - 53) (-1074) - e').
  (* the second shift is by 0 or 1 *)
  assert (Hcases : (r = 2 ^ 53 /\ n2 = 1) \/
                   (r < 2 ^ 53 /\ n2 = 0 /\ Z.max (dr + e' - 53) (-1074) = e')).
  { destruct (Z.eq_dec r (2 ^ 53)) as [Hr2|Hr2].
    - left. split; [exact Hr2|]. unfold n2, dr. rewrite Hr2. change (Zdigits2 (2 ^ 53)) with 54. lia.
    - right. assert (Hlt : r < 2 ^ 53) by lia. split; [exact Hlt|].
      assert (dr <= 53) by (apply Zdigits2_le; lia).
      destruct Hm'52 as [H52|Hsub].
      + assert (52 < dr) by (apply Zdigits2_gt; lia). unfold n2. lia.
      + pose proof (Zdigits2_nonneg r). unfold n2. fold dr in H0. lia. }
  assert (Hn2 : 0 <= n2) by lia.
  pose proof (shr_spec (shr_record_of_loc r loc_Exact) e' n2) as S2.
  rewrite shr_record_of_loc_m in S2. specialize (S2 ltac:(lia) Hn2).
  destruct (shr (shr_record_of_loc r loc_Exact) e' n2) as [mrs'' e''] eqn:Eshr2.
  cbn [fst snd] in S2. destruct S2 as [He'' [Hm'' _]].
  assert (HEe' : 0 < 2 ^ (E - e')) by (apply Z.pow_pos_nonneg; lia).
  change (2 ^ 53) with 9007199254740992 in *.
  change (2 ^ 52) with 4503599627370496 in *.
  destruct Hcases as [[Hr2 Hn21] | [Hlt [Hn20 Hcanon]]].
  - (* carry: the mantissa is 2^53, renormalised to 2^52 *)
    rewrite Hn21 in *. rewrite Hr2 in Hm''.
    change (9007199254740992 / 2 ^ 1) with 4503599627370496 in Hm''.
    rewrite Hm''. 
    assert (HE1 : 1 <= E - e').
    { destruct (Z.eq_dec (E - e') 0) as [Hz|]; [|lia]. rewrite Hz in HU'.
      change (2 ^ 0) with 1 in HU'. lia. }
    assert ((e'' <=? emax - prec) = true) as -> by (apply Z.leb_le; change (emax - prec) with 971; lia).
    right. exists 4503599627370496%positive, e''. split; [reflexivity|]. split.
    + apply bounded64. change (Zdigits2 (Zpos 4503599627370496)) with 53. lia.
    + destruct (Z.eq_dec (E - e') 1) as [H1|H1]; [|left; lia].
      right. split; [lia|]. rewrite H1 in HU'. change (2 ^ 1) with 2 in HU'. lia.
  - rewrite Hn20 in *. rewrite Z.pow_0_r, Z.div_1_r in Hm''. rewrite Hm''.
    destruct r as [|p|p] eqn:Er; [left; reflexivity| |lia].
    assert ((e'' <=? emax - prec) = true) as -> by (apply Z.leb_le; change (emax - prec) with 971; lia).
    right. exists p, e''. split; [reflexivity|]. split.
    + apply bounded64. fold dr. lia.
    + destruct (Z.eq_dec E e') as [HEq|HEq]; [|left; lia].
      right. split; [lia|]. replace (E - e') with 0 in HU' by lia.
      change (2 ^ 0) with 1 in HU'. lia.
Qed.

(** ** Binary64 arithmetic: quotient and product *)

Lemma new_location_zero (nb_steps : Z) : new_location nb_steps 0 = loc_Exact.
Proof.
  unfold new_location, new_location_even, new_location_odd.
  destruct (Z.even nb_steps); reflexivity.
Qed.

(** The quotient of two positive integers [a <= b] is at most 1. *)
Lemma SFdiv_le_one (a b : positive) :
  Zpos a <= Zpos b ->
  sf_below 4503599627370496 (-52)
    (SF64div (S754_finite false a 0) (S754_finite false b 0)).
Proof.
  intros Hab. unfold SF64div, SFdiv, SFdiv_core_binary. rewrite fexp64.
  cbn [xorb].
  set (d1 := Zdigits2 (Zpos a)). set (d2 := Zdigits2 (Zpos b)).
  assert (Hd1 : 0 < d1) by (apply (Zdigits2_gt (Zpos a) 0); simpl; lia).
  assert (Hb2 : Zpos b < 2 ^ d2) by (apply Zdigits2_upper; lia).
  assert (Hd12 : d1 <= d2).
  { apply Zdigits2_le; [apply Zdigits2_nonneg | lia]. }
  set (e' := Z.min (Z.max (d1 + 0 - (d2 + 0) - 53) (-1074)) (0 - 0)).
  assert (He' : e' = Z.max (d1 - d2 - 53) (-1074)) by (unfold e'; lia).
  set (s := 0 - 0 - e').
  assert (Hs : 53 <= s) by (unfold s; lia).
  assert (Hps : 0 < 2 ^ s) by (apply Z.pow_pos_nonneg; lia).
  assert (Hm' : match s with Z.pos _ => Z.shiftl (Zpos a) s | 0 => Zpos a | Z.neg _ => 0 end
                = Zpos a * 2 ^ s).
  { destruct s; try lia. apply Z.shiftl_mul_pow2. lia. }
  rewrite Hm'.
  pose proof (Z_div_mod (Zpos a * 2 ^ s) (Zpos b) ltac:(lia)) as Hdiv.
  destruct (Z.div_eucl (Zpos a * 2 ^ s) (Zpos b)) as [q r].
  destruct Hdiv as [Hq Hr].
  assert (Hq0 : 0 <= q) by nia.
  apply binary_round_aux_below; try lia.
  - rewrite fexp64.
    destruct (Z.eq_dec e' (-1074)) as [|Hne]; [lia|].
    assert (Hs' : s = 52 + d2 - d1 + 1) by (unfold s; lia).
    assert (Ha : 2 ^ (d1 - 1) <= Zpos a) by (apply Zdigits2_lower; lia).
    assert (Hq52 : 2 ^ 52 <= q).
    { destruct (Z_lt_le_dec q (2 ^ 52)) as [Hlt|]; [exfalso|assumption].
      assert (Hpow : 2 ^ (d1 - 1) * 2 ^ s = 2 ^ 52 * 2 ^ d2).
      { rewrite <- !Z.pow_add_r by lia. f_equal. lia. }
      assert (2 ^ 52 * 2 ^ d2 <= Zpos a * 2 ^ s).
      { rewrite <- Hpow. apply Z.mul_le_mono_nonneg_r; lia. }
      change (2 ^ 52) with 4503599627370496 in *. nia. }
    assert (52 < Zdigits2 q) by (apply Zdigits2_gt; lia).
    lia.
  - replace (-52 - e') with (s - 52) by (unfold s; lia).
    assert (Hpow : 4503599627370496 * 2 ^ (s - 52) = 2 ^ s).
    { change 4503599627370496 with (2 ^ 52). rewrite <- Z.pow_add_r by lia. f_equal. lia. }
    rewrite Hpow.
    destruct (Z.eq_dec r 0) as [->|Hrnz].
    + rewrite new_location_zero. nia.
    + assert (q < 2 ^ s) by nia.
      destruct (new_location (Zpos b) r); lia.
Qed.

Lemma sf_below_valid (M : positive) (E : Z) (x : spec_float) :
  sf_below M E x -> valid_binary x = true.
Proof.
  intros [->|[m [e [-> [Hb _]]]]]; [reflexivity | exact Hb].
Qed.

(** Multiplying a number that is at most 1 by 100 gives at most 100. *)
Lemma SFmul_100_below (x : spec_float) :
  sf_below 4503599627370496 (-52) x ->
  sf_below 7036874417766400 (-46)
    (SF64mul x (S754_finite false 7036874417766400 (-46))).
Proof.
  intros [->|[m [e [-> [Hb Hle]]]]]; [left; reflexivity|].
  unfold SF64mul, SFmul. cbn [xorb].
  apply bounded64 in Hb. destruct Hb as [Hcanon Hemax].
  assert (Hm53 : Zpos m < 2 ^ 53).
  { apply Z.lt_le_trans with (1 := Zdigits2_upper (Zpos m) ltac:(lia)).
    apply Z.pow_le_mono_r; lia. }
  assert (Hme : Zpos m <= 2 ^ (- e)).
  { destruct Hle as [Hlt|[-> Hle]]; [|exact Hle].
    apply Z.le_trans with (2 ^ 53); [lia | apply Z.pow_le_mono_r; lia]. }
  apply binary_round_aux_below; try lia.
  - rewrite fexp64.
    assert (52 < Zdigits2 (Zpos (m * 7036874417766400))).
    { apply Zdigits2_gt; [lia|]. change (2 ^ 52) with 4503599627370496. lia. }
    lia.
  - replace (-46 - (e + -46)) with (- e) by lia.
    rewrite Pos2Z.inj_mul. lia.
Qed.

Lemma Prim2SF_100 : Prim2SF 100 = S754_finite false 7036874417766400 (-46).
Proof. reflexivity. Qed.

Lemma Prim2SF_0 : Prim2SF 0 = S754_zero false.
Proof. reflexivity. Qed.

(** ** Binary64 arithmetic: comparisons *)

Lemma SFcompare_antisym (x y : spec_float) :
  SFcompare y x = option_map CompOpp (SFcompare x y).
Proof.
  destruct x as [sx|sx| |sx mx ex], y as [sy|sy| |sy my ey]; simpl;
    try (destruct sx); try (destruct sy); trivial;
    rewrite (Z.compare_antisym ex ey); destruct (ex ?= ey); simpl; trivial;
    change (Pos.compare_cont Eq my mx) with (Pos.compare my mx);
    change (Pos.compare_cont Eq mx my) with (Pos.compare mx my);
    rewrite (Pos.compare_antisym mx my); reflexivity.
Qed.

(** [a <= p] excludes [p < a]. *)
Lemma leb_true_ltb_false (a p : float) :
  (a <=? p)%float = true -> (p <? a)%float = false.
Proof.
  rewrite leb_spec, ltb_spec. unfold SFleb, SFltb.
  rewrite (SFcompare_antisym (Prim2SF a) (Prim2SF p)).
  destruct (SFcompare (Prim2SF a) (Prim2SF p)) as [[]|]; simpl; congruence.
Qed.

Lemma Prim2SF_10 : Prim2SF 10 = S754_finite false 5629499534213120 (-49).
Proof. reflexivity. Qed.

Lemma Prim2SF_30 : Prim2SF 30 = S754_finite false 8444249301319680 (-48).
Proof. reflexivity. Qed.

(** What is below 10 is below 30. *)
Lemma ltb_10_ltb_30 (p : float) :
  (p <? 10)%float = true -> (p <? 30)%float = true.
Proof.
  rewrite !ltb_spec, Prim2SF_10, Prim2SF_30. unfold SFltb.
  destruct (Prim2SF p) as [s|s| |s m e]; cbn [SFcompare]; try (destruct s); trivial.
  destruct (Z.compare_spec e (-49)), (Z.compare_spec e (-48));
    trivial; try lia; discriminate.
Qed.

Lemma SFmul_comm (x y : spec_float) : SF64mul x y = SF64mul y x.
Proof.
  unfold SF64mul.
  destruct x as [sx|sx| |sx mx ex], y as [sy|sy| |sy my ey]; simpl;
    rewrite ?(xorb_comm sx sy), ?(Pos.mul_comm mx my), ?(Z.add_comm ex ey); reflexivity.
Qed.

Lemma mul_comm (x y : float) : (x * y)%float = (y * x)%float.
Proof. apply Prim2SF_inj. rewrite !mul_spec. apply SFmul_comm. Qed.

(** ** Binary64 arithmetic: the percentage of a part of a whole *)

Lemma SFdiv_Z_le_one (a b : Z) :
  0 <= a <= b -> 0 < b ->
  sf_below 4503599627370496 (-52) (SF64div (Z2SF a) (Z2SF b)).
Proof.
  intros Hab Hb. destruct b as [|b|b]; try lia.
  destruct a as [|a|a]; try lia.
  - left. reflexivity.
  - apply SFdiv_le_one. lia.
Qed.

Lemma sf_below_leb (M : positive) (E : Z) (x : spec_float) :
  sf_below M E x ->
  SFleb (S754_zero false) x = true /\ SFleb x (S754_finite false M E) = true.
Proof.
  intros [->|[m [e [-> [_ Hle]]]]]; [split; reflexivity|].
  split; [reflexivity|]. unfold SFleb; simpl.
  destruct (Z.compare_spec e E) as [Heq|Hlt|Hgt]; trivial; [|lia].
  destruct Hle as [|[_ Hm]]; [lia|].
  change (Pos.compare_cont Eq m M) with (Zpos m ?= Zpos M).
  destruct (Z.compare_spec (Zpos m) (Zpos M)); trivial. lia.
Qed.

(** The percentage computed from a count [a] of pixels among [b]. *)
Lemma percentage_bounds (a b : Z) :
  0 <= a <= b -> 0 < b ->
  let p := (SF2Prim (SF64div (Z2SF a) (Z2SF b)) * 100)%float in
  (0 <=? p)%float = true /\ (p <=? 100)%float = true.
Proof.
  intros Hab Hb p.
  pose proof (SFdiv_Z_le_one a b Hab Hb) as Hq.
  assert (Hp : sf_below 7036874417766400 (-46) (Prim2SF p)).
  { unfold p. rewrite mul_spec, Prim2SF_100.
    rewrite (Prim2SF_SF2Prim _ (sf_below_valid _ _ _ Hq)).
    apply SFmul_100_below, Hq. }
  rewrite !leb_spec, Prim2SF_0, Prim2SF_100.
  apply (sf_below_leb _ _ _ Hp).
Qed.

(** ** The segmenter: what it returns *)

Lemma mask_of_map_px {A : Type} (P : A -> Prop) (f : A -> Z) (src : array2 A) :
  (forall p, f p <> 0 <-> P p) -> mask_of P src (map_px f src).
Proof.
  intros Hf i j. rewrite pix_at_map_px.
  destruct (pix_at src i j) as [p|]; simpl; [apply Hf | exact I].
Qed.

Lemma in_bounds_hue (p : pixel) :
  in_bounds lower_hue upper_hue p = true <->
  (15 <= ch0 p <= 30) /\ (50 <= ch1 p <= 255) /\ (50 <= ch2 p <= 255).
Proof.
  unfold in_bounds, lower_hue, upper_hue; simpl.
  rewrite !andb_true_iff, !Z.leb_le. lia.
Qed.

Lemma two_valued_inRange (src : image) (lo hi : pixel) :
  two_valued 0 255 (inRange src lo hi).
Proof.
  unfold two_valued, inRange, map_px.
  apply Forall_map, Forall_forall; intros row _.
  apply Forall_map, Forall_forall; intros p _.
  destruct (in_bounds lo hi p); auto.
Qed.

Lemma two_valued_astype (a : array2 bool) : two_valued 0 1 (astype_uint8 a).
Proof.
  unfold two_valued, astype_uint8, map_px.
  apply Forall_map, Forall_forall; intros row _.
  apply Forall_map, Forall_forall; intros b _.
  destruct b; auto.
Qed.

Lemma zip_with_truthy_land (r1 r2 : list Z) :
  Forall (fun v => v = 0 \/ v = 255) r1 ->
  Forall (fun v => v = 0 \/ v = 1) r2 ->
  map truthy (zip_with Z.land r1 r2) = zip_with (fun x y => truthy x && truthy y) r1 r2.
Proof.
  intros H1; revert r2; induction H1 as [|x r1 Hx _ IH]; intros r2 H2.
  - reflexivity.
  - destruct H2 as [|y r2 Hy H2]; [reflexivity|].
    simpl. rewrite (IH r2 H2). f_equal.
    destruct Hx as [-> | ->], Hy as [-> | ->]; reflexivity.
Qed.

Section SegmenterFacts.

Variable read_file : string -> pyresult (list Z).
Variable imdecode : list Z -> pyresult (option image).
Variable cvtColor : image -> ColorConversionCode -> image.

Local Abbreviation load := (load_and_process_image read_file imdecode cvtColor).

(** On a decoded image the segmenter returns the RGB image and the two
    masks computed from its HSV conversion. *)
Lemma load_decoded (image_path : string) (data : list Z) (img : image) :
  read_file image_path = Return data ->
  imdecode data = Return (Some img) ->
  let rgb := cvtColor img COLOR_BGR2RGB in
  let hsv := cvtColor rgb COLOR_RGB2HSV in
  let leaf_mask := astype_uint8 (gt_scalar (channel1 hsv) 25) in
  load image_path =
  Return (rgb, leaf_mask, bitwise_and (inRange hsv lower_hue upper_hue) leaf_mask).
Proof.
  intros Hr Hd. unfold load_and_process_image. rewrite Hr; simpl. rewrite Hd; simpl.
  reflexivity.
Qed.

(** Conversely, masks are returned only for a decoded image. *)
Lemma load_returns (image_path : string) (r : image * ndarray * ndarray) :
  load image_path = Return r ->
  exists data img,
    read_file image_path = Return data /\ imdecode data = Return (Some img).
Proof.
  unfold load_and_process_image.
  destruct (read_file image_path) as [data|e] eqn:Hr; simpl; [|discriminate].
  destruct (imdecode data) as [[img|]|e] eqn:Hd; simpl; try discriminate.
  intros _. exists data, img. split; [reflexivity | exact Hd].
Qed.

End SegmenterFacts.

(** ** Properties of the segmenter *)

Lemma mask_subset_bitwise_and (a b : ndarray) : mask_subset (bitwise_and a b) b.
Proof.
  intros i j v Hv Hnz. unfold bitwise_and in Hv. rewrite pix_at_map2_px in Hv.
  destruct (pix_at a i j) as [x|]; [|discriminate].
  destruct (pix_at b i j) as [w|]; [|discriminate].
  injection Hv as <-. exists w. split; [reflexivity|].
  intros ->. apply Hnz, Z.land_0_r.
Qed.

Lemma mask_subset_incl (a b : ndarray) :
  mask_subset a b -> incl (nonzero a) (nonzero b).
Proof.
  intros H [i j] Hin. apply In_nonzero in Hin. destruct Hin as [v [Hv Hnz]].
  apply In_nonzero. exact (H i j v Hv Hnz).
Qed.

(** C4. For a decoded image the segmenter returns, and every pixel that is
    true in the returned infected mask is true in the returned leaf mask (the
    infected positions are among the leaf positions), the infected mask
    being the bitwise AND of the range mask with the leaf mask. *)
Theorem infected_subset_of_leaf
  (read_file : string -> pyresult (list Z))
  (imdecode : list Z -> pyresult (option image))
  (cvtColor : image -> ColorConversionCode -> image)
  (image_path : string) (data : list Z) (img : image) :
  read_file image_path = Return data ->
  imdecode data = Return (Some img) ->
  exists rgb leaf_mask infected_mask,
    load_and_process_image read_file imdecode cvtColor image_path
      = Return (rgb, leaf_mask, infected_mask) /\
    infected_mask
      = bitwise_and (inRange (cvtColor rgb COLOR_RGB2HSV) lower_hue upper_hue) leaf_mask /\
    mask_subset infected_mask leaf_mask /\
    incl (nonzero infected_mask) (nonzero leaf_mask).
Proof.
  intros Hr Hd. eexists _, _, _.
  split; [apply (load_decoded _ _ _ _ _ _ Hr Hd)|].
  split; [reflexivity|].
  split; [|apply mask_subset_incl]; apply mask_subset_bitwise_and.
Qed.

Lemma infected_subset_of_leaf_witness :
  exists rgb leaf_mask infected_mask,
    load_and_process_image
      (fun _ => Return [137; 80; 78; 71])
      (fun _ => Return (Some [[mkPixel 20 100 100; mkPixel 60 200 200]]))
      (fun img _ => img) "leaf.png"
      = Return (rgb, leaf_mask, infected_mask) /\
    infected_mask = bitwise_and (inRange rgb lower_hue upper_hue) leaf_mask /\
    mask_subset infected_mask leaf_mask /\
    incl (nonzero infected_mask) (nonzero leaf_mask).
Proof.
  exact (infected_subset_of_leaf
           (fun _ => Return [137; 80; 78; 71])
           (fun _ => Return (Some [[mkPixel 20 100 100; mkPixel 60 200 200]]))
           (fun img _ => img)
           "leaf.png" [137; 80; 78; 71] _ eq_refl eq_refl).
Defined.

(** Conversely, whatever the segmenter returns satisfies the inclusion. *)
Lemma load_returns_subset
  (read_file : string -> pyresult (list Z))
  (imdecode : list Z -> pyresult (option image))
  (cvtColor : image -> ColorConversionCode -> image)
  (image_path : string) (rgb : image) (leaf_mask infected_mask : ndarray) :
  load_and_process_image read_file imdecode cvtColor image_path
    = Return (rgb, leaf_mask, infected_mask) ->
  mask_subset infected_mask leaf_mask.
Proof.
  intros Hload.
  destruct (load_returns _ _ _ _ _ Hload) as [data [img [Hr Hd]]].
  rewrite (load_decoded _ _ _ _ _ _ Hr Hd) in Hload.
  injection Hload as _ <- <-. apply mask_subset_bitwise_and.
Qed.

(** C6. For a decoded image, the returned leaf mask has the shape of the HSV
    image and is true at a pixel exactly when the saturation channel of that
    pixel is strictly greater than 25. *)
Theorem leaf_mask_is_saturation_threshold
  (read_file : string -> pyresult (list Z))
  (imdecode : list Z -> pyresult (option image))
  (cvtColor : image -> ColorConversionCode -> image)
  (image_path : string) (data : list Z) (img : image) :
  read_file image_path = Return data ->
  imdecode data = Return (Some img) ->
  exists rgb leaf_mask infected_mask,
    load_and_process_image read_file imdecode cvtColor image_path
      = Return (rgb, leaf_mask, infected_mask) /\
    rgb = cvtColor img COLOR_BGR2RGB /\
    mask_of (fun p => 25 < ch1 p) (cvtColor rgb COLOR_RGB2HSV) leaf_mask.
Proof.
  intros Hr Hd. eexists _, _, _. split; [apply (load_decoded _ _ _ _ _ _ Hr Hd)|].
  split; [reflexivity|].
  unfold astype_uint8, gt_scalar, channel1.
  rewrite 2!map_px_map_px.
  apply (mask_of_map_px (fun p => 25 < ch1 p)
           (fun p => if 25 <? ch1 p then 1 else 0)).
  intros p. destruct (Z.ltb_spec 25 (ch1 p)); split; intros; try lia; congruence.
Qed.

Lemma leaf_mask_is_saturation_threshold_witness :
  exists rgb leaf_mask infected_mask,
    load_and_process_image
      (fun _ => Return [137; 80; 78; 71])
      (fun _ => Return (Some [[mkPixel 20 26 100; mkPixel 60 25 200]]))
      (fun img _ => img) "leaf.png"
      = Return (rgb, leaf_mask, infected_mask) /\
    rgb = [[mkPixel 20 26 100; mkPixel 60 25 200]] /\
    mask_of (fun p => 25 < ch1 p) rgb leaf_mask.
Proof.
  exact (leaf_mask_is_saturation_threshold
           (fun _ => Return [137; 80; 78; 71])
           (fun _ => Return (Some [[mkPixel 20 26 100; mkPixel 60 25 200]]))
           (fun img _ => img)
           "leaf.png" [137; 80; 78; 71] _ eq_refl eq_refl).
Defined.



(** C8. When the bytes read from the file do not decode to an image
    ([cv2.imdecode] returns [None], or raises), the segmenter raises one
    exception of class [Exception] whose message is the prefix followed by the message of the
    underlying cause, and so returns no image and no mask. *)
Theorem decode_failure_is_wrapped
  (read_file : string -> pyresult (list Z))
  (imdecode : list Z -> pyresult (option image))
  (cvtColor : image -> ColorConversionCode -> image)
  (image_path : string) (data : list Z) :
  read_file image_path = Return data ->
  (forall img, imdecode data <> Return (Some img)) ->
  exists cause,
    load_and_process_image read_file imdecode cvtColor image_path
      = Raise (mkExn Exception ("Error processing image: " ++ cause)%string) /\
    (imdecode data = Return None ->
       cause = ("Unable to load image from: " ++ image_path)%string) /\
    (forall e, imdecode data = Raise e -> cause = str e) /\
    (forall r, load_and_process_image read_file imdecode cvtColor image_path <> Return r).
Proof.
  intros Hr Hno. unfold load_and_process_image. rewrite Hr; simpl.
  destruct (imdecode data) as [[img|]|e] eqn:Hd; simpl.
  - elim (Hno img). reflexivity.
  - eexists. split; [reflexivity|]. repeat split; intros; congruence.
  - eexists. split; [reflexivity|]. repeat split; intros; congruence.
Qed.

Lemma decode_failure_is_wrapped_witness :
  exists cause,
    load_and_process_image
      (fun _ => Return []) (fun _ => Return None) (fun img _ => img) "empty.png"
      = Raise (mkExn Exception ("Error processing image: " ++ cause)%string) /\
    ((fun _ : list Z => @Return (option image) None) [] = Return None ->
       cause = ("Unable to load image from: " ++ "empty.png")%string) /\
    (forall e, (fun _ : list Z => @Return (option image) None) [] = Raise e -> cause = str e) /\
    (forall r, load_and_process_image
      (fun _ => Return []) (fun _ => Return None) (fun img _ => img) "empty.png" <> Return r).
Proof.
  apply (decode_failure_is_wrapped
           (fun _ => Return []) (fun _ => Return None) (fun img _ => img)
           "empty.png" [] eq_refl).
  intros img; discriminate.
Defined.

(** C9. On a 0/255-valued mask and a 0/1-valued mask the bitwise AND used by
    the program has, at every pixel, the truth value of the boolean AND of
    the two truth values; 255 & 1 is 1, and the result is 0 as soon as one
    operand is 0. *)
Theorem bitwise_and_refines_boolean_and (infected_range leaf_mask : ndarray) :
  two_valued 0 255 infected_range ->
  two_valued 0 1 leaf_mask ->
  map_px truthy (bitwise_and infected_range leaf_mask)
    = boolean_and infected_range leaf_mask /\
  Z.land 255 1 = 1 /\
  (forall v, Z.land 0 v = 0 /\ Z.land v 0 = 0).
Proof.
  intros H1 H2. split; [|split; [reflexivity|]].
  - unfold bitwise_and, boolean_and, map2_px, map_px.
    revert leaf_mask H2; induction H1 as [|r1 a Hr1 _ IH]; intros b H2.
    + reflexivity.
    + destruct H2 as [|r2 b Hr2 H2]; [reflexivity|].
      simpl. rewrite (IH b H2), (zip_with_truthy_land r1 r2 Hr1 Hr2). reflexivity.
  - intros v. split; [apply Z.land_0_l | apply Z.land_0_r].
Qed.

Lemma bitwise_and_refines_boolean_and_witness :
  map_px truthy (bitwise_and [[255; 0]; [255; 0]] [[1; 1]; [0; 0]])
    = boolean_and [[255; 0]; [255; 0]] [[1; 1]; [0; 0]] /\
  Z.land 255 1 = 1 /\
  (forall v, Z.land 0 v = 0 /\ Z.land v 0 = 0).
Proof.
  apply (bitwise_and_refines_boolean_and [[255; 0]; [255; 0]] [[1; 1]; [0; 0]]);
    unfold two_valued;
    repeat (apply Forall_cons || apply Forall_nil);
    ((left; reflexivity) || (right; reflexivity)).
Defined.

(** ** Properties of the severity calculator: failure and counting *)

Lemma truediv_returns (a b : Z) :
  b <> 0 -> truediv a b = Return (SF2Prim (SF64div (Z2SF a) (Z2SF b))).
Proof. intros Hb. unfold truediv. apply Z.eqb_neq in Hb. rewrite Hb. reflexivity. Qed.

(** The result on a non-empty leaf mask, with the percentage named. *)
Lemma calculate_severity_returns (leaf_mask infected_mask : ndarray) :
  count_nonzero leaf_mask <> 0 ->
  exists q,
    truediv (count_nonzero infected_mask) (count_nonzero leaf_mask) = Return q /\
    calculate_severity leaf_mask infected_mask =
    Return (mkResult (q * 100)%float
              (if (q * 100 <? 10)%float then "Low"
               else if (q * 100 <? 30)%float then "Moderate" else "High")).
Proof.
  intros Hn. unfold calculate_severity.
  rewrite (proj2 (Z.eqb_neq _ _) Hn), (truediv_returns _ _ Hn). simpl.
  eexists. split; reflexivity.
Qed.

Lemma calculate_severity_empty (leaf_mask infected_mask : ndarray) :
  count_nonzero leaf_mask = 0 ->
  calculate_severity leaf_mask infected_mask = Raise empty_leaf_error.
Proof. intros Hz. unfold calculate_severity. rewrite Hz. reflexivity. Qed.

(** C3. [calculate_severity] raises the empty-leaf error exactly when the
    leaf mask has no true pixel; it raises nothing else (in particular no
    [ZeroDivisionError]: the division is never reached with a zero divisor),
    and on an empty leaf mask it returns no result record. *)
Theorem empty_leaf_error_iff (leaf_mask infected_mask : ndarray) :
  (calculate_severity leaf_mask infected_mask = Raise empty_leaf_error
     <-> no_true_pixel leaf_mask) /\
  (forall e, calculate_severity leaf_mask infected_mask = Raise e ->
             e = empty_leaf_error /\ no_true_pixel leaf_mask) /\
  (no_true_pixel leaf_mask ->
     forall r, calculate_severity leaf_mask infected_mask <> Return r) /\
  (forall msg, calculate_severity leaf_mask infected_mask
                 <> Raise (mkExn ZeroDivisionError msg)).
Proof.
  destruct (Z.eq_dec (count_nonzero leaf_mask) 0) as [Hz|Hn].
  - pose proof (calculate_severity_empty leaf_mask infected_mask Hz) as E.
    pose proof (proj1 (count_nonzero_zero leaf_mask) Hz) as Hempty.
    rewrite E. repeat split; trivial; intros; try discriminate; congruence.
  - destruct (calculate_severity_returns leaf_mask infected_mask Hn) as [q [_ E]].
    rewrite E.
    assert (Hne : ~ no_true_pixel leaf_mask)
      by (intros H; apply Hn, count_nonzero_zero, H).
    repeat split; intros; try discriminate; contradiction.
Qed.


(** C10. [calculate_severity] depends on its masks only through their sets of
    nonzero positions: two pairs of masks that are true at the same
    positions give the same outcome (the same record, or the same error),
    whatever nonzero values are stored, 1 or 255 for instance. *)
Theorem calculate_severity_nonzero_positions
  (leaf_mask infected_mask leaf_mask' infected_mask' : ndarray) :
  same_true_pixels leaf_mask leaf_mask' ->
  same_true_pixels infected_mask infected_mask' ->
  calculate_severity leaf_mask infected_mask
    = calculate_severity leaf_mask' infected_mask'.
Proof.
  intros Hl Hi. unfold calculate_severity.
  rewrite (same_true_pixels_count _ _ Hl), (same_true_pixels_count _ _ Hi).
  reflexivity.
Qed.

Lemma calculate_severity_nonzero_positions_witness :
  calculate_severity [[1; 1]; [0; 1]] [[0; 1]; [0; 0]]
    = calculate_severity [[255; 255]; [0; 255]] [[0; 255]; [0; 0]].
Proof.
  apply (calculate_severity_nonzero_positions
           [[1; 1]; [0; 1]] [[0; 1]; [0; 0]]
           [[255; 255]; [0; 255]] [[0; 255]; [0; 0]]);
    apply same_true_pixels_nonzero; reflexivity.
Defined.

(** Re-encoding both masks from 0/1 to 0/255 changes nothing. *)
Lemma calculate_severity_encoding (leaf_mask infected_mask : ndarray) :
  calculate_severity (map_px (Z.mul 255) leaf_mask) (map_px (Z.mul 255) infected_mask)
    = calculate_severity leaf_mask infected_mask.
Proof.
  unfold calculate_severity.
  rewrite <- (same_true_pixels_count leaf_mask (map_px (Z.mul 255) leaf_mask)),
          <- (same_true_pixels_count infected_mask (map_px (Z.mul 255) infected_mask));
    [reflexivity | |]; apply same_true_pixels_map; intros v; lia.
Qed.

(** ** Properties of the severity calculator: percentage and level *)

(** The records of 29 and of 50 true pixels among 100. *)
Lemma severity_29_of_100 :
  calculate_severity (row_of_ones 100) (row_of_ones 29)
    = Return (mkResult 0x1.cffffffffffffp+4 "Moderate").
Proof. vm_compute. reflexivity. Qed.

Lemma severity_50_of_100 :
  calculate_severity (row_of_ones 100) (row_of_ones 50) = Return (mkResult 50 "High").
Proof. vm_compute. reflexivity. Qed.

(** Some percentages are the exact ratio: 50 of 100. *)
Example float_is_ratio_50 :
  float_is_ratio 50 (100 * true_pixels (row_of_ones 50)) (true_pixels (row_of_ones 100)).
Proof. vm_compute. reflexivity. Qed.

(** C2, as stated, fails. With 29 true pixels in the infected mask and 100
    in the leaf mask, 100 times 29 divided by 100 is 29, a binary64 number,
    and it is also what [100 * infected / total_leaf] gives in floating
    point; the percentage returned is 28.999999999999996, the binary64
    number just below 29: the quotient 29/100 is rounded before it is
    multiplied by 100, and the product is rounded again. *)
Lemma percentage_29_of_100_is_not_29 :
  exists r,
    calculate_severity (row_of_ones 100) (row_of_ones 29) = Return r /\
    ~ float_is_ratio (percentage r)
        (100 * true_pixels (row_of_ones 29)) (true_pixels (row_of_ones 100)) /\
    truediv (100 * true_pixels (row_of_ones 29)) (true_pixels (row_of_ones 100))
      = Return 29%float /\
    percentage r <> 29%float.
Proof.
  eexists. split; [apply severity_29_of_100|]. cbn [percentage].
  split; [|split].
  - vm_compute. discriminate.
  - vm_compute. reflexivity.
  - intros H. apply (f_equal Prim2SF) in H. vm_compute in H. discriminate.
Qed.

(** C2, amended. On a leaf mask with at least one true pixel, the returned
    percentage is the binary64 product of 100 and the binary64 quotient of
    the number of true pixels of the infected mask by the number of true
    pixels of the leaf mask: the quotient is the exact quotient of the two
    integers rounded to the nearest binary64 number, and its product with
    100 is rounded again. *)
Theorem percentage_is_rounded_ratio_times_100 (leaf_mask infected_mask : ndarray) :
  has_true_pixel leaf_mask ->
  exists r,
    calculate_severity leaf_mask infected_mask = Return r /\
    0 < true_pixels leaf_mask /\
    percentage r =
      PrimFloat.mul 100%float
        (SF2Prim
           (SF64div
              (if true_pixels infected_mask =? 0 then S754_zero false
               else S754_finite false (Z.to_pos (true_pixels infected_mask)) 0)
              (S754_finite false (Z.to_pos (true_pixels leaf_mask)) 0))).
Proof.
  intros Hleaf. unfold true_pixels. rewrite <- !count_nonzero_nonzero.
  pose proof (proj2 (count_nonzero_pos leaf_mask) Hleaf) as Hpos.
  pose proof (count_nonzero_nonneg infected_mask) as H0.
  destruct (calculate_severity_returns leaf_mask infected_mask ltac:(lia)) as [q [Hq E]].
  rewrite truediv_returns in Hq by lia. injection Hq as <-.
  eexists. split; [exact E|]. split; [exact Hpos|]. cbn [percentage].
  rewrite mul_comm. do 3 f_equal.
  - destruct (count_nonzero infected_mask) as [|a|a]; try lia; reflexivity.
  - destruct (count_nonzero leaf_mask) as [|b|b]; try lia; reflexivity.
Qed.

Lemma percentage_is_rounded_ratio_times_100_witness :
  exists r,
    calculate_severity [[1; 1; 1; 1; 1]; [1; 1; 1; 1; 1]] [[0; 0; 1; 1; 1]; [0; 0; 0; 0; 0]]
      = Return r /\
    0 < true_pixels [[1; 1; 1; 1; 1]; [1; 1; 1; 1; 1]] /\
    percentage r =
      PrimFloat.mul 100%float
        (SF2Prim
           (SF64div
              (if true_pixels [[0; 0; 1; 1; 1]; [0; 0; 0; 0; 0]] =? 0
               then S754_zero false
               else S754_finite false
                      (Z.to_pos (true_pixels [[0; 0; 1; 1; 1]; [0; 0; 0; 0; 0]])) 0)
              (S754_finite false
                 (Z.to_pos (true_pixels [[1; 1; 1; 1; 1]; [1; 1; 1; 1; 1]])) 0))).
Proof.
  apply (percentage_is_rounded_ratio_times_100
           [[1; 1; 1; 1; 1]; [1; 1; 1; 1; 1]] [[0; 0; 1; 1; 1]; [0; 0; 0; 0; 0]]).
  exists 0%nat, 0%nat, 1. split; [reflexivity | lia].
Defined.



(** C5. When the leaf mask has a true pixel and every true pixel of the
    infected mask is a true pixel of the leaf mask, a record is returned
    whose percentage lies between 0 and 100, bounds included, and whose
    level is one of the three labels. *)
Theorem percentage_and_level_in_range (leaf_mask infected_mask : ndarray) :
  has_true_pixel leaf_mask ->
  mask_subset infected_mask leaf_mask ->
  exists r,
    calculate_severity leaf_mask infected_mask = Return r /\
    (0 <=? percentage r)%float = true /\
    (percentage r <=? 100)%float = true /\
    (level r = "Low" \/ level r = "Moderate" \/ level r = "High").
Proof.
  intros Hleaf Hsub.
  assert (Hpos : 0 < count_nonzero leaf_mask) by (apply count_nonzero_pos, Hleaf).
  assert (Hle : count_nonzero infected_mask <= count_nonzero leaf_mask)
    by (apply count_nonzero_incl, mask_subset_nonzero, Hsub).
  pose proof (count_nonzero_nonneg infected_mask) as H0.
  destruct (calculate_severity_returns leaf_mask infected_mask ltac:(lia)) as [q [Hq E]].
  rewrite truediv_returns in Hq by lia. injection Hq as <-.
  eexists. split; [exact E|]. cbn [percentage level].
  destruct (percentage_bounds (count_nonzero infected_mask) (count_nonzero leaf_mask)
              ltac:(lia) Hpos) as [Hlo Hhi].
  split; [exact Hlo|]. split; [exact Hhi|].
  match goal with |- context [if ?c then _ else _] => destruct c end; auto.
  match goal with |- context [if ?c then _ else _] => destruct c end; auto.
Qed.

Lemma percentage_and_level_in_range_witness :
  exists r,
    calculate_severity [[1; 1; 1; 1; 1]; [1; 1; 1; 1; 1]] [[0; 0; 1; 1; 1]; [0; 0; 0; 0; 0]]
      = Return r /\
    (0 <=? percentage r)%float = true /\
    (percentage r <=? 100)%float = true /\
    (level r = "Low" \/ level r = "Moderate" \/ level r = "High").
Proof.
  apply (percentage_and_level_in_range
           [[1; 1; 1; 1; 1]; [1; 1; 1; 1; 1]] [[0; 0; 1; 1; 1]; [0; 0; 0; 0; 0]]).
  - exists 0%nat, 0%nat, 1. split; [reflexivity | lia].
  - apply mask_subset_nonzero. intros x Hx. simpl in *. tauto.
Defined.

(** ** The boundary cases and the examples of the specification, computed *)

Example severity_exactly_10 :
  calculate_severity (row_of_ones 10) (row_of_ones 1) = Return (mkResult 10 "Moderate").
Proof. vm_compute. reflexivity. Qed.

Example severity_exactly_30 :
  calculate_severity (row_of_ones 10) (row_of_ones 3) = Return (mkResult 30 "High").
Proof. vm_compute. reflexivity. Qed.

Example severity_9_99 :
  calculate_severity (row_of_ones 10000) (row_of_ones 999)
    = Return (mkResult 0x1.3fae147ae147bp+3 "Low").
Proof. vm_compute. reflexivity. Qed.

Example severity_29_99 :
  calculate_severity (row_of_ones 10000) (row_of_ones 2999)
    = Return (mkResult 0x1.dfd70a3d70a3dp+4 "Moderate").
Proof. vm_compute. reflexivity. Qed.

Example severity_patch_10x10 :
  calculate_severity (row_of_ones 10000) (row_of_ones 100) = Return (mkResult 1 "Low").
Proof. vm_compute. reflexivity. Qed.

Example severity_patch_35x35 :
  calculate_severity (row_of_ones 10000) (row_of_ones 1225)
    = Return (mkResult 12.25 "Moderate").
Proof. vm_compute. reflexivity. Qed.

Example severity_all_white :
  calculate_severity (repeat (repeat 0 50%nat) 50%nat) (repeat (repeat 0 50%nat) 50%nat)
    = Raise empty_leaf_error.
Proof. vm_compute. reflexivity. Qed.

(** The quotient of two integers is the binary64 quotient of the two numbers. *)
Example truediv_7_100 : truediv 7 100 = Return (7 / 100)%float.
Proof. vm_compute. reflexivity. Qed.

Example truediv_1_3 : truediv 1 3 = Return (1 / 3)%float.
Proof. vm_compute. reflexivity. Qed.

Example truediv_by_zero :
  truediv 1 0 = Raise (mkExn ZeroDivisionError "division by zero").
Proof. reflexivity. Qed.

(** The two roundings are visible: 7 pixels among 100 give a percentage one
    unit in the last place above 7. *)
Example severity_7_of_100 :
  calculate_severity (row_of_ones 100) (row_of_ones 7)
    = Return (mkResult 0x1.c000000000001p+2 "Low").
Proof. vm_compute. reflexivity. Qed.

(** ** Further properties of the segmenter *)


Lemma zip_with_same {A B C D : Type} (f : B -> C -> D) (g : A -> B) (h : A -> C) (l : list A) :
  zip_with f (map g l) (map h l) = map (fun x => f (g x) (h x)) l.
Proof. induction l as [|x l IH]; simpl; [|rewrite IH]; reflexivity. Qed.

(** The AND of two arrays computed pixel by pixel from the same array. *)
Lemma map2_px_same {A B C D : Type} (f : B -> C -> D) (g : A -> B) (h : A -> C) (a : array2 A) :
  map2_px f (map_px g a) (map_px h a) = map_px (fun x => f (g x) (h x)) a.
Proof.
  unfold map2_px, map_px. rewrite zip_with_same. apply map_ext. intros row.
  apply zip_with_same.
Qed.

(** The two masks as functions of the HSV image. *)
Lemma leaf_mask_pointwise (hsv : image) :
  astype_uint8 (gt_scalar (channel1 hsv) 25)
    = map_px (fun p => if 25 <? ch1 p then 1 else 0) hsv.
Proof. unfold astype_uint8, gt_scalar, channel1. rewrite 2!map_px_map_px. reflexivity. Qed.

Lemma infected_mask_pointwise (hsv : image) :
  bitwise_and (inRange hsv lower_hue upper_hue)
              (astype_uint8 (gt_scalar (channel1 hsv) 25))
    = map_px (fun p => if in_bounds lower_hue upper_hue p then 1 else 0) hsv.
Proof.
  rewrite leaf_mask_pointwise. unfold bitwise_and, inRange. rewrite map2_px_same.
  unfold map_px. apply map_ext. intros row. apply map_ext. intros p.
  destruct (in_bounds lower_hue upper_hue p) eqn:Hb; [|destruct (25 <? ch1 p); reflexivity].
  apply in_bounds_hue in Hb. destruct (Z.ltb_spec 25 (ch1 p)); [reflexivity | lia].
Qed.

Lemma two_valued_map_px {A : Type} (f : A -> Z) (lo hi : Z) (a : array2 A) :
  (forall p, f p = lo \/ f p = hi) -> two_valued lo hi (map_px f a).
Proof.
  intros Hf. unfold two_valued, map_px.
  apply Forall_map, Forall_forall; intros row _.
  apply Forall_map, Forall_forall; intros p _. apply Hf.
Qed.

(** X1. The returned infected mask is true exactly at the pixels of the HSV image
    that lie in the yellow-brown box: the intersection with the leaf mask
    removes no pixel (a saturation of at least 50 exceeds 25) and only turns
    the value 255 of [cv2.inRange] into 1. *)
Theorem infected_mask_is_hsv_box
  (read_file : string -> pyresult (list Z))
  (imdecode : list Z -> pyresult (option image))
  (cvtColor : image -> ColorConversionCode -> image)
  (image_path : string) (rgb : image) (leaf_mask infected_mask : ndarray) :
  load_and_process_image read_file imdecode cvtColor image_path
    = Return (rgb, leaf_mask, infected_mask) ->
  mask_of in_hsv_box (cvtColor rgb COLOR_RGB2HSV) infected_mask /\
  same_true_pixels infected_mask
    (inRange (cvtColor rgb COLOR_RGB2HSV) lower_hue upper_hue) /\
  two_valued 0 1 infected_mask /\ two_valued 0 1 leaf_mask.
Proof.
  intros Hload.
  destruct (load_returns _ _ _ _ _ Hload) as [data [img [Hr Hd]]].
  rewrite (load_decoded _ _ _ _ _ _ Hr Hd) in Hload.
  injection Hload as <- <- <-.
  set (hsv := cvtColor (cvtColor img COLOR_BGR2RGB) COLOR_RGB2HSV).
  rewrite infected_mask_pointwise, leaf_mask_pointwise.
  assert (Hbox : forall p, (if in_bounds lower_hue upper_hue p then 1 else 0) <> 0
                           <-> in_hsv_box p).
  { intros p. unfold in_hsv_box. rewrite <- in_bounds_hue.
    destruct (in_bounds lower_hue upper_hue p); split; intros; try lia; congruence. }
  split; [apply mask_of_map_px, Hbox|]. split; [|split].
  - intros i j. unfold inRange. rewrite !pix_at_map_px.
    destruct (pix_at hsv i j) as [p|]; simpl.
    + destruct (in_bounds lower_hue upper_hue p);
        split; intros [v [E Hnz]]; injection E as <-; try lia;
        eexists; (split; [reflexivity | lia]).
    + split; intros [v [E _]]; discriminate.
  - apply two_valued_map_px. intros p. destruct (in_bounds lower_hue upper_hue p); auto.
  - apply two_valued_map_px. intros p. destruct (25 <? ch1 p); auto.
Qed.

Lemma infected_mask_is_hsv_box_witness :
  mask_of in_hsv_box [[mkPixel 20 100 100; mkPixel 60 200 200]] [[1; 0]] /\
  same_true_pixels [[1; 0]]
    (inRange [[mkPixel 20 100 100; mkPixel 60 200 200]] lower_hue upper_hue) /\
  two_valued 0 1 [[1; 0]] /\ two_valued 0 1 [[1; 1]].
Proof.
  exact (infected_mask_is_hsv_box
           (fun _ => Return [137; 80; 78; 71])
           (fun _ => Return (Some [[mkPixel 20 100 100; mkPixel 60 200 200]]))
           (fun img _ => img)
           "leaf.png" _ _ _ eq_refl).
Defined.



(** X3. A file that cannot be opened or read is reported like a decode failure:
    the exception of the operating system is replaced by one [Exception]
    whose message is the prefix followed by the original message, and
    neither the decoder nor the colour conversion matters. *)
Theorem read_failure_is_wrapped
  (read_file : string -> pyresult (list Z))
  (imdecode : list Z -> pyresult (option image))
  (cvtColor : image -> ColorConversionCode -> image)
  (image_path : string) (e : exn) :
  read_file image_path = Raise e ->
  load_and_process_image read_file imdecode cvtColor image_path
    = Raise (mkExn Exception ("Error processing image: " ++ str e)%string) /\
  analyze_leaf read_file imdecode cvtColor image_path
    = Raise (mkExn Exception ("Error processing image: " ++ str e)%string).
Proof.
  intros Hr. unfold analyze_leaf, load_and_process_image. rewrite Hr. split; reflexivity.
Qed.

Lemma read_failure_is_wrapped_witness :
  load_and_process_image
    (fun _ => Raise (mkExn OSError "[Errno 2] No such file or directory: 'gone.png'"))
    (fun _ => Return None) (fun img _ => img) "gone.png"
    = Raise (mkExn Exception
               "Error processing image: [Errno 2] No such file or directory: 'gone.png'") /\
  analyze_leaf
    (fun _ => Raise (mkExn OSError "[Errno 2] No such file or directory: 'gone.png'"))
    (fun _ => Return None) (fun img _ => img) "gone.png"
    = Raise (mkExn Exception
               "Error processing image: [Errno 2] No such file or directory: 'gone.png'").
Proof.
  exact (read_failure_is_wrapped
           (fun _ => Raise (mkExn OSError "[Errno 2] No such file or directory: 'gone.png'"))
           (fun _ => Return None) (fun img _ => img) "gone.png" _ eq_refl).
Defined.

(** ** Further properties of the severity calculator *)

(** A quotient of a positive integer by itself is exactly 1. *)
Lemma SFdiv_same (a : positive) :
  SF64div (S754_finite false a 0) (S754_finite false a 0)
    = S754_finite false 4503599627370496 (-52).
Proof.
  unfold SF64div, SFdiv, SFdiv_core_binary. cbn [xorb].
  replace (Zdigits2 (Zpos a) + 0 - (Zdigits2 (Zpos a) + 0)) with 0 by lia.
  change (Z.min (fexp prec emax 0) (0 - 0)) with (-53).
  change (0 - 0 - -53) with 53.
  cbv iota. rewrite Z.shiftl_mul_pow2 by lia.
  pose proof (Z_div_mod (Zpos a * 2 ^ 53) (Zpos a) ltac:(lia)) as Hdiv.
  destruct (Z.div_eucl (Zpos a * 2 ^ 53) (Zpos a)) as [q r].
  destruct Hdiv as [Hq Hr].
  change (2 ^ 53) with 9007199254740992 in Hq.
  assert (q = 9007199254740992) by nia.
  assert (r = 0) by nia. subst q r.
  rewrite new_location_zero. reflexivity.
Qed.

Lemma calculate_severity_counts (leaf_mask infected_mask : ndarray) :
  count_nonzero leaf_mask <> 0 ->
  calculate_severity leaf_mask infected_mask =
  (let p := (SF2Prim (SF64div (Z2SF (count_nonzero infected_mask))
                               (Z2SF (count_nonzero leaf_mask))) * 100)%float in
   Return (mkResult p (if (p <? 10)%float then "Low"
                       else if (p <? 30)%float then "Moderate" else "High"))).
Proof.
  intros Hn. destruct (calculate_severity_returns leaf_mask infected_mask Hn) as [q [Hq E]].
  rewrite truediv_returns in Hq by exact Hn. injection Hq as <-. exact E.
Qed.

Lemma calculate_severity_raises (leaf_mask infected_mask : ndarray) (e : exn) :
  calculate_severity leaf_mask infected_mask = Raise e ->
  e = empty_leaf_error /\ no_true_pixel leaf_mask.
Proof.
  destruct (Z.eq_dec (count_nonzero leaf_mask) 0) as [Hz|Hn].
  - rewrite (calculate_severity_empty _ _ Hz). intros H. injection H as <-.
    split; [reflexivity | apply count_nonzero_zero, Hz].
  - rewrite (calculate_severity_counts _ _ Hn). discriminate.
Qed.

(** X4. When the leaf mask has a true pixel and the infected mask has none, the
    result is exactly 0 percent, level "Low". *)
Theorem no_infected_pixel_is_zero_percent (leaf_mask infected_mask : ndarray) :
  has_true_pixel leaf_mask ->
  no_true_pixel infected_mask ->
  calculate_severity leaf_mask infected_mask = Return (mkResult 0 "Low").
Proof.
  intros Hleaf Hinf.
  pose proof (proj2 (count_nonzero_pos leaf_mask) Hleaf) as Hpos.
  rewrite calculate_severity_counts by lia.
  rewrite (proj2 (count_nonzero_zero infected_mask) Hinf).
  destruct (count_nonzero leaf_mask) as [|t|t]; try lia.
  reflexivity.
Qed.

Lemma no_infected_pixel_is_zero_percent_witness :
  calculate_severity [[1; 1]; [0; 255]] [[0; 0]; [0; 0]] = Return (mkResult 0 "Low").
Proof.
  apply (no_infected_pixel_is_zero_percent [[1; 1]; [0; 255]] [[0; 0]; [0; 0]]).
  - exists 0%nat, 0%nat, 1. split; [reflexivity | lia].
  - apply count_nonzero_zero. reflexivity.
Defined.

(** X5. When the infected mask is true at exactly the true pixels of a non-empty
    leaf mask, the result is exactly 100 percent, level "High": the quotient
    of the two equal counts and its product with 100 are exact. *)
Theorem every_leaf_pixel_infected_is_100_percent (leaf_mask infected_mask : ndarray) :
  has_true_pixel leaf_mask ->
  same_true_pixels infected_mask leaf_mask ->
  calculate_severity leaf_mask infected_mask = Return (mkResult 100 "High").
Proof.
  intros Hleaf Hsame.
  pose proof (proj2 (count_nonzero_pos leaf_mask) Hleaf) as Hpos.
  rewrite calculate_severity_counts by lia.
  rewrite (same_true_pixels_count _ _ Hsame).
  destruct (count_nonzero leaf_mask) as [|t|t]; try lia.
  cbn [Z2SF]. rewrite SFdiv_same. reflexivity.
Qed.

Lemma every_leaf_pixel_infected_is_100_percent_witness :
  calculate_severity [[1; 1]; [0; 1]] [[255; 255]; [0; 255]]
    = Return (mkResult 100 "High").
Proof.
  apply (every_leaf_pixel_infected_is_100_percent [[1; 1]; [0; 1]] [[255; 255]; [0; 255]]).
  - exists 0%nat, 0%nat, 1. split; [reflexivity | lia].
  - apply same_true_pixels_nonzero. reflexivity.
Defined.

(** ** Properties of the whole analysis *)

Lemma analyze_leaf_unfold
  (read_file : string -> pyresult (list Z))
  (imdecode : list Z -> pyresult (option image))
  (cvtColor : image -> ColorConversionCode -> image) (filepath : string) :
  analyze_leaf read_file imdecode cvtColor filepath =
  match load_and_process_image read_file imdecode cvtColor filepath with
  | Return (_, leaf_mask, infected_mask) => calculate_severity leaf_mask infected_mask
  | Raise e => Raise e
  end.
Proof.
  unfold analyze_leaf.
  destruct (load_and_process_image read_file imdecode cvtColor filepath)
    as [[[rgb leaf_mask] infected_mask]|e]; simpl; [|reflexivity].
  destruct (calculate_severity leaf_mask infected_mask); reflexivity.
Qed.

Lemma load_raises
  (read_file : string -> pyresult (list Z))
  (imdecode : list Z -> pyresult (option image))
  (cvtColor : image -> ColorConversionCode -> image) (image_path : string) (e : exn) :
  load_and_process_image read_file imdecode cvtColor image_path = Raise e ->
  exists cause, e = mkExn Exception ("Error processing image: " ++ cause)%string.
Proof.
  unfold load_and_process_image.
  destruct (read_file image_path) as [data|e1]; simpl.
  - destruct (imdecode data) as [[img|]|e2]; simpl; intros H; try discriminate;
      injection H as <-; eexists; reflexivity.
  - intros H. injection H as <-. eexists; reflexivity.
Qed.

Lemma has_true_pixel_leaf_mask (hsv : image) :
  has_true_pixel (astype_uint8 (gt_scalar (channel1 hsv) 25)) <->
  exists i j p, pix_at hsv i j = Some p /\ 25 < ch1 p.
Proof.
  rewrite leaf_mask_pointwise. unfold has_true_pixel. split.
  - intros [i [j [v [Hv Hnz]]]]. rewrite pix_at_map_px in Hv.
    destruct (pix_at hsv i j) as [p|] eqn:Hp; [|discriminate].
    simpl in Hv. injection Hv as <-. exists i, j, p. split; [exact Hp|].
    destruct (Z.ltb_spec 25 (ch1 p)); [assumption | congruence].
  - intros [i [j [p [Hp Hs]]]]. exists i, j, 1. rewrite pix_at_map_px, Hp. simpl.
    apply Z.ltb_lt in Hs. rewrite Hs. split; [reflexivity | lia].
Qed.

(** The counts of the two masks the segmenter builds from an HSV image. *)
Lemma segmented_counts (hsv : image) :
  let leaf_mask := astype_uint8 (gt_scalar (channel1 hsv) 25) in
  let infected_mask := bitwise_and (inRange hsv lower_hue upper_hue) leaf_mask in
  0 <= count_nonzero infected_mask <= count_nonzero leaf_mask /\
  (0 < count_nonzero leaf_mask <->
   exists i j p, pix_at hsv i j = Some p /\ 25 < ch1 p).
Proof.
  intros leaf_mask infected_mask. split; [split|].
  - apply count_nonzero_nonneg.
  - apply count_nonzero_incl, mask_subset_incl, mask_subset_bitwise_and.
  - rewrite <- has_true_pixel_leaf_mask. apply count_nonzero_pos.
Qed.

Lemma calculate_severity_in_range (leaf_mask infected_mask : ndarray) :
  0 < count_nonzero leaf_mask ->
  count_nonzero infected_mask <= count_nonzero leaf_mask ->
  exists r,
    calculate_severity leaf_mask infected_mask = Return r /\
    (0 <=? percentage r)%float = true /\
    (percentage r <=? 100)%float = true /\
    (level r = "Low" \/ level r = "Moderate" \/ level r = "High").
Proof.
  intros Hpos Hle. pose proof (count_nonzero_nonneg infected_mask) as H0.
  rewrite calculate_severity_counts by lia. cbv zeta.
  eexists. split; [reflexivity|]. cbn [percentage level].
  destruct (percentage_bounds (count_nonzero infected_mask) (count_nonzero leaf_mask)
              ltac:(lia) Hpos) as [Hlo Hhi].
  split; [exact Hlo|]. split; [exact Hhi|].
  match goal with |- context [if ?c then _ else _] => destruct c end; auto.
  match goal with |- context [if ?c then _ else _] => destruct c end; auto.
Qed.

(** X7. [analyze_leaf] fails in two ways only: with the wrapped [Exception] of
    the segmenter, when the file cannot be read or decoded, or with the
    [ValueError] of the empty leaf mask, which is raised outside the
    segmenter's [try] and so is not wrapped.  No other exception escapes. *)
Theorem analyze_leaf_errors
  (read_file : string -> pyresult (list Z))
  (imdecode : list Z -> pyresult (option image))
  (cvtColor : image -> ColorConversionCode -> image) (filepath : string) (e : exn) :
  analyze_leaf read_file imdecode cvtColor filepath = Raise e ->
  (load_and_process_image read_file imdecode cvtColor filepath = Raise e /\
   exists cause, e = mkExn Exception ("Error processing image: " ++ cause)%string) \/
  (e = empty_leaf_error /\
   exists rgb leaf_mask infected_mask,
     load_and_process_image read_file imdecode cvtColor filepath
       = Return (rgb, leaf_mask, infected_mask) /\
     no_true_pixel leaf_mask).
Proof.
  rewrite analyze_leaf_unfold.
  destruct (load_and_process_image read_file imdecode cvtColor filepath)
    as [[[rgb leaf_mask] infected_mask]|e1] eqn:Hload.
  - intros Hc. right. destruct (calculate_severity_raises _ _ _ Hc) as [-> Hempty].
    split; [reflexivity|]. exists rgb, leaf_mask, infected_mask. split; [reflexivity | exact Hempty].
  - intros H. injection H as <-. left. split; [reflexivity|].
    apply (load_raises _ _ _ _ _ Hload).
Qed.

Lemma analyze_leaf_errors_witness :
  (load_and_process_image (fun _ => Return [0; 1; 2]) (fun _ => Return None)
     (fun img _ => img) "noise.bin"
     = Raise (mkExn Exception "Error processing image: Unable to load image from: noise.bin") /\
   exists cause,
     mkExn Exception "Error processing image: Unable to load image from: noise.bin"
       = mkExn Exception ("Error processing image: " ++ cause)%string) \/
  (mkExn Exception "Error processing image: Unable to load image from: noise.bin"
     = empty_leaf_error /\
   exists rgb leaf_mask infected_mask,
     load_and_process_image (fun _ => Return [0; 1; 2]) (fun _ => Return None)
       (fun img _ => img) "noise.bin"
       = Return (rgb, leaf_mask, infected_mask) /\
     no_true_pixel leaf_mask).
Proof.
  exact (analyze_leaf_errors (fun _ => Return [0; 1; 2]) (fun _ => Return None)
           (fun img _ => img) "noise.bin" _ eq_refl).
Defined.

(** X8. For a decoded image, the analysis raises the empty-leaf [ValueError]
    exactly when no pixel of the HSV image has a saturation above 25 (an
    all-white picture, for instance). *)
Theorem analyze_leaf_empty_leaf_iff
  (read_file : string -> pyresult (list Z))
  (imdecode : list Z -> pyresult (option image))
  (cvtColor : image -> ColorConversionCode -> image)
  (filepath : string) (data : list Z) (img : image) :
  read_file filepath = Return data ->
  imdecode data = Return (Some img) ->
  (analyze_leaf read_file imdecode cvtColor filepath = Raise empty_leaf_error <->
   forall i j p,
     pix_at (cvtColor (cvtColor img COLOR_BGR2RGB) COLOR_RGB2HSV) i j = Some p ->
     ch1 p <= 25).
Proof.
  intros Hr Hd. rewrite analyze_leaf_unfold, (load_decoded _ _ _ _ _ _ Hr Hd).
  set (hsv := cvtColor (cvtColor img COLOR_BGR2RGB) COLOR_RGB2HSV).
  pose proof (has_true_pixel_leaf_mask hsv) as Hleaf.
  pose proof (count_nonzero_pos (astype_uint8 (gt_scalar (channel1 hsv) 25))) as Hpos.
  fold (has_true_pixel (astype_uint8 (gt_scalar (channel1 hsv) 25))) in Hpos.
  split.
  - intros Hc i j p Hp. apply calculate_severity_raises in Hc. destruct Hc as [_ Hempty].
    destruct (Z_le_gt_dec (ch1 p) 25) as [|Hgt]; [assumption|exfalso].
    assert (Hex : exists i j p, pix_at hsv i j = Some p /\ 25 < ch1 p)
      by (exists i, j, p; split; [exact Hp | lia]).
    apply Hleaf, Hpos in Hex. apply count_nonzero_zero in Hempty. lia.
  - intros Hall. apply calculate_severity_empty.
    pose proof (count_nonzero_nonneg (astype_uint8 (gt_scalar (channel1 hsv) 25))).
    destruct (Z.eq_dec (count_nonzero (astype_uint8 (gt_scalar (channel1 hsv) 25))) 0)
      as [|Hn]; [assumption|exfalso].
    assert (Hp : 0 < count_nonzero (astype_uint8 (gt_scalar (channel1 hsv) 25))) by lia.
    apply Hpos, Hleaf in Hp. destruct Hp as [i [j [p [Hp Hs]]]].
    specialize (Hall i j p Hp). lia.
Qed.

Lemma analyze_leaf_empty_leaf_iff_witness :
  analyze_leaf (fun _ => Return [137; 80; 78; 71])
    (fun _ => Return (Some [[mkPixel 0 0 255; mkPixel 0 25 255]]))
    (fun img _ => img) "white.png" = Raise empty_leaf_error <->
  forall i j p,
    pix_at [[mkPixel 0 0 255; mkPixel 0 25 255]] i j = Some p -> ch1 p <= 25.
Proof.
  exact (analyze_leaf_empty_leaf_iff (fun _ => Return [137; 80; 78; 71])
           (fun _ => Return (Some [[mkPixel 0 0 255; mkPixel 0 25 255]]))
           (fun img _ => img) "white.png" [137; 80; 78; 71] _ eq_refl eq_refl).
Defined.

(** X9. For a decoded image with at least one pixel of saturation above 25, the
    analysis returns a record: its percentage lies between 0 and 100 and
    its level is one of the three labels. The masks the segmenter builds meet
    the precondition under which the calculator keeps the percentage in
    range. *)
Theorem analyze_leaf_in_range
  (read_file : string -> pyresult (list Z))
  (imdecode : list Z -> pyresult (option image))
  (cvtColor : image -> ColorConversionCode -> image)
  (filepath : string) (data : list Z) (img : image) :
  read_file filepath = Return data ->
  imdecode data = Return (Some img) ->
  (exists i j p,
     pix_at (cvtColor (cvtColor img COLOR_BGR2RGB) COLOR_RGB2HSV) i j = Some p /\
     25 < ch1 p) ->
  exists r,
    analyze_leaf read_file imdecode cvtColor filepath = Return r /\
    (0 <=? percentage r)%float = true /\
    (percentage r <=? 100)%float = true /\
    (level r = "Low" \/ level r = "Moderate" \/ level r = "High").
Proof.
  intros Hr Hd Hex. rewrite analyze_leaf_unfold, (load_decoded _ _ _ _ _ _ Hr Hd).
  destruct (segmented_counts (cvtColor (cvtColor img COLOR_BGR2RGB) COLOR_RGB2HSV))
    as [[_ Hle] Hpos].
  apply calculate_severity_in_range; [apply Hpos, Hex | exact Hle].
Qed.

Lemma analyze_leaf_in_range_witness :
  exists r,
    analyze_leaf (fun _ => Return [137; 80; 78; 71])
      (fun _ => Return (Some [[mkPixel 20 100 100; mkPixel 60 200 200]]))
      (fun img _ => img) "leaf.png" = Return r /\
    (0 <=? percentage r)%float = true /\
    (percentage r <=? 100)%float = true /\
    (level r = "Low" \/ level r = "Moderate" \/ level r = "High").
Proof.
  apply (analyze_leaf_in_range (fun _ => Return [137; 80; 78; 71])
           (fun _ => Return (Some [[mkPixel 20 100 100; mkPixel 60 200 200]]))
           (fun img _ => img) "leaf.png" [137; 80; 78; 71] _ eq_refl eq_refl).
  exists 0%nat, 0%nat, (mkPixel 20 100 100). split; [reflexivity | simpl; lia].
Defined.

(** ** Properties of the upload endpoint *)

Lemma os_path_join_uploads (name : string) :
  os_path_join "uploads" name
    = if startswith_sep name then name else ("uploads/" ++ name)%string.
Proof. unfold os_path_join. destruct (startswith_sep name); reflexivity. Qed.

Section UploadFacts.

Variable World : Type.
Variable makedirs : string -> World -> pyresult World.
Variable save : FileStorage -> string -> World -> pyresult World.
Variable read_file : World -> string -> pyresult (list Z).
Variable imdecode : list Z -> pyresult (option image).
Variable cvtColor : image -> ColorConversionCode -> image.
Variable format_2f : float -> string.

Local Abbreviation upload :=
  (upload_file World makedirs save read_file imdecode cvtColor format_2f).

(** The view once the upload is saved: the response is decided by the
    outcome of the analysis of the saved file. *)
Lemma upload_saved (request_files : MultiDict) (file : FileStorage) (w w1 w2 : World) :
  get_file "file" request_files = Some file ->
  filename file <> "" ->
  makedirs "uploads" w = Return w1 ->
  save file (os_path_join "uploads" (filename file)) w1 = Return w2 ->
  upload request_files w =
  Return
    (match analyze_leaf (read_file w2) imdecode cvtColor
             (os_path_join "uploads" (filename file)) with
     | Return severity_data =>
         mkResponse
           [("severity",
             (format_2f (percentage severity_data)
                ++ "% (" ++ level severity_data ++ ")")%string);
            ("image_url", ("/uploads/" ++ filename file)%string)]
           200
     | Raise e => mkResponse [("error", str e)] 500
     end, w2).
Proof.
  intros Hfile Hname Hmk Hsave. unfold upload_file.
  rewrite Hfile. apply String.eqb_neq in Hname. rewrite Hname.
  cbv zeta. rewrite Hmk. cbn [bind]. rewrite Hsave. cbn [bind].
  destruct (analyze_leaf (read_file w2) imdecode cvtColor
              (os_path_join "uploads" (filename file))); reflexivity.
Qed.

(** X10. A request without a part named [file], or whose part has an empty file
    name, is answered 400 with the reason, and the file system is left as it
    was: no directory is created and nothing is saved. No other request is
    answered 400. *)
Theorem upload_rejected_iff (request_files : MultiDict) (w : World) :
  (get_file "file" request_files = None ->
   upload request_files w
     = Return (mkResponse [("error", "No file part")] 400, w)) /\
  (forall file,
     get_file "file" request_files = Some file -> filename file = "" ->
     upload request_files w
       = Return (mkResponse [("error", "No selected file")] 400, w)) /\
  (forall response w',
     upload request_files w = Return (response, w') ->
     status response = 400 ->
     get_file "file" request_files = None \/
     exists file, get_file "file" request_files = Some file /\ filename file = "").
Proof.
  split; [|split].
  - intros Hfile. unfold upload_file. rewrite Hfile. reflexivity.
  - intros file Hfile Hname. unfold upload_file. rewrite Hfile, Hname. reflexivity.
  - intros response w' Hup Hst.
    destruct (get_file "file" request_files) as [file|] eqn:Hfile; [|left; reflexivity].
    right. exists file. split; [reflexivity|].
    destruct (string_dec (filename file) "") as [|Hname]; [assumption|exfalso].
    unfold upload_file in Hup. rewrite Hfile in Hup.
    apply String.eqb_neq in Hname. rewrite Hname in Hup. cbv zeta in Hup.
    destruct (makedirs "uploads" w) as [w1|e1]; [|discriminate].
    cbn [bind] in Hup.
    destruct (save file (os_path_join "uploads" (filename file)) w1) as [w2|e2];
      [|discriminate].
    cbn [bind] in Hup.
    destruct (analyze_leaf (read_file w2) imdecode cvtColor
                (os_path_join "uploads" (filename file)));
      cbn in Hup; injection Hup as <- _; cbn in Hst; discriminate.
Qed.

(** X11. Once the upload is saved, the view always answers: no exception of the
    analysis escapes it.  The answer is 200 when the analysis returns, and
    500 with the message of the exception when it raises, that message being
    the one of the empty leaf mask or a wrapped segmentation error. *)
Theorem upload_answers_after_save
  (request_files : MultiDict) (file : FileStorage) (w w1 w2 : World) :
  get_file "file" request_files = Some file ->
  filename file <> "" ->
  makedirs "uploads" w = Return w1 ->
  save file (os_path_join "uploads" (filename file)) w1 = Return w2 ->
  exists response,
    upload request_files w = Return (response, w2) /\
    ((status response = 200 /\
      exists severity_data,
        analyze_leaf (read_file w2) imdecode cvtColor
          (os_path_join "uploads" (filename file)) = Return severity_data /\
        json response =
          [("severity",
            (format_2f (percentage severity_data)
               ++ "% (" ++ level severity_data ++ ")")%string);
           ("image_url", ("/uploads/" ++ filename file)%string)]) \/
     (status response = 500 /\
      exists e,
        analyze_leaf (read_file w2) imdecode cvtColor
          (os_path_join "uploads" (filename file)) = Raise e /\
        json response = [("error", str e)] /\
        (e = empty_leaf_error \/
         exists cause, e = mkExn Exception ("Error processing image: " ++ cause)%string))).
Proof.
  intros Hfile Hname Hmk Hsave.
  rewrite (upload_saved _ _ _ _ _ Hfile Hname Hmk Hsave).
  destruct (analyze_leaf (read_file w2) imdecode cvtColor
              (os_path_join "uploads" (filename file))) as [r|e] eqn:Han.
  - eexists. split; [reflexivity|]. left. split; [reflexivity|].
    exists r. split; reflexivity.
  - eexists. split; [reflexivity|]. right. split; [reflexivity|].
    exists e. split; [reflexivity|]. split; [reflexivity|].
    rewrite analyze_leaf_unfold in Han.
    destruct (load_and_process_image (read_file w2) imdecode cvtColor
                (os_path_join "uploads" (filename file)))
      as [[[rgb leaf_mask] infected_mask]|e1] eqn:Hload.
    + left. apply (calculate_severity_raises _ _ _ Han).
    + injection Han as <-. right. apply (load_raises _ _ _ _ _ Hload).
Qed.

(** X12. When the saved file reads back as bytes that decode to an image with a
    pixel of saturation above 25, the answer is 200: its severity text is
    the two-decimal rendering of a percentage between 0 and 100, followed by
    the level in brackets, and its image address is the upload directory
    followed by the client's file name. *)
Theorem upload_success
  (request_files : MultiDict) (file : FileStorage) (w w1 w2 : World)
  (data : list Z) (img : image) :
  get_file "file" request_files = Some file ->
  filename file <> "" ->
  makedirs "uploads" w = Return w1 ->
  save file (os_path_join "uploads" (filename file)) w1 = Return w2 ->
  read_file w2 (os_path_join "uploads" (filename file)) = Return data ->
  imdecode data = Return (Some img) ->
  (exists i j p,
     pix_at (cvtColor (cvtColor img COLOR_BGR2RGB) COLOR_RGB2HSV) i j = Some p /\
     25 < ch1 p) ->
  exists r,
    upload request_files w =
    Return
      (mkResponse
         [("severity", (format_2f (percentage r) ++ "% (" ++ level r ++ ")")%string);
          ("image_url", ("/uploads/" ++ filename file)%string)]
         200, w2) /\
    (0 <=? percentage r)%float = true /\
    (percentage r <=? 100)%float = true /\
    (level r = "Low" \/ level r = "Moderate" \/ level r = "High").
Proof.
  intros Hfile Hname Hmk Hsave Hread Hdec Hex.
  rewrite (upload_saved _ _ _ _ _ Hfile Hname Hmk Hsave).
  rewrite analyze_leaf_unfold, (load_decoded _ _ _ _ _ _ Hread Hdec).
  destruct (segmented_counts (cvtColor (cvtColor img COLOR_BGR2RGB) COLOR_RGB2HSV))
    as [[_ Hle] Hpos].
  destruct (calculate_severity_in_range _ _ (proj2 Hpos Hex) Hle) as [r [Hc Hr]].
  exists r. split; [rewrite Hc; reflexivity | exact Hr].
Qed.

(** X13. An exception of [os.makedirs] or of [file.save] is not caught: both run
    before the [try], so it escapes the view instead of becoming a JSON
    answer. *)
Theorem upload_save_failure_escapes
  (request_files : MultiDict) (file : FileStorage) (w : World) (e : exn) :
  get_file "file" request_files = Some file ->
  filename file <> "" ->
  makedirs "uploads" w = Raise e \/
  (exists w1, makedirs "uploads" w = Return w1 /\
              save file (os_path_join "uploads" (filename file)) w1 = Raise e) ->
  upload request_files w = Raise e.
Proof.
  intros Hfile Hname Hfail. unfold upload_file.
  rewrite Hfile. apply String.eqb_neq in Hname. rewrite Hname. cbv zeta.
  destruct Hfail as [Hmk|[w1 [Hmk Hsave]]]; rewrite Hmk; cbn [bind]; [reflexivity|].
  rewrite Hsave. reflexivity.
Qed.

End UploadFacts.

Lemma upload_answers_after_save_witness :
  exists response,
    upload_file FileSystem fs_makedirs fs_save fs_read
      (fun _ => Return None) (fun img _ => img) (fun _ => "0.00")
      [("file", mkFile "noise.bin" [0; 1; 2])] []
      = Return (response, [("uploads/noise.bin", [0; 1; 2])]) /\
    ((status response = 200 /\
      exists severity_data,
        analyze_leaf (fs_read [("uploads/noise.bin", [0; 1; 2])])
          (fun _ => Return None) (fun img _ => img)
          (os_path_join "uploads" "noise.bin") = Return severity_data /\
        json response =
          [("severity",
            ("0.00" ++ "% (" ++ level severity_data ++ ")")%string);
           ("image_url", ("/uploads/" ++ "noise.bin")%string)]) \/
     (status response = 500 /\
      exists e,
        analyze_leaf (fs_read [("uploads/noise.bin", [0; 1; 2])])
          (fun _ => Return None) (fun img _ => img)
          (os_path_join "uploads" "noise.bin") = Raise e /\
        json response = [("error", str e)] /\
        (e = empty_leaf_error \/
         exists cause, e = mkExn Exception ("Error processing image: " ++ cause)%string))).
Proof.
  apply (upload_answers_after_save FileSystem fs_makedirs fs_save fs_read
           (fun _ => Return None) (fun img _ => img) (fun _ => "0.00")
           [("file", mkFile "noise.bin" [0; 1; 2])] (mkFile "noise.bin" [0; 1; 2])
           [] [] [("uploads/noise.bin", [0; 1; 2])]).
  - reflexivity.
  - discriminate.
  - reflexivity.
  - reflexivity.
Defined.

Lemma upload_success_witness :
  exists r,
    upload_file FileSystem fs_makedirs fs_save fs_read
      (fun _ => Return (Some [[mkPixel 20 100 100; mkPixel 60 200 200]]))
      (fun img _ => img) (fun _ => "50.00")
      [("file", mkFile "leaf.png" [137; 80; 78; 71])] []
    = Return
        (mkResponse
           [("severity", ("50.00" ++ "% (" ++ level r ++ ")")%string);
            ("image_url", ("/uploads/" ++ "leaf.png")%string)]
           200, [("uploads/leaf.png", [137; 80; 78; 71])]) /\
    (0 <=? percentage r)%float = true /\
    (percentage r <=? 100)%float = true /\
    (level r = "Low" \/ level r = "Moderate" \/ level r = "High").
Proof.
  apply (upload_success FileSystem fs_makedirs fs_save fs_read
           (fun _ => Return (Some [[mkPixel 20 100 100; mkPixel 60 200 200]]))
           (fun img _ => img) (fun _ => "50.00")
           [("file", mkFile "leaf.png" [137; 80; 78; 71])]
           (mkFile "leaf.png" [137; 80; 78; 71])
           [] [] [("uploads/leaf.png", [137; 80; 78; 71])]
           [137; 80; 78; 71] [[mkPixel 20 100 100; mkPixel 60 200 200]]).
  - reflexivity.
  - discriminate.
  - reflexivity.
  - reflexivity.
  - reflexivity.
  - reflexivity.
  - exists 0%nat, 0%nat, (mkPixel 20 100 100). split; [reflexivity | simpl; lia].
Defined.

Lemma upload_save_failure_escapes_witness :
  upload_file FileSystem fs_makedirs
    (fun _ _ _ => Raise (mkExn OSError "[Errno 28] No space left on device"))
    fs_read (fun _ => Return None) (fun img _ => img) (fun _ => "0.00")
    [("file", mkFile "leaf.png" [137; 80; 78; 71])] []
  = Raise (mkExn OSError "[Errno 28] No space left on device").
Proof.
  apply (upload_save_failure_escapes FileSystem fs_makedirs
           (fun _ _ _ => Raise (mkExn OSError "[Errno 28] No space left on device"))
           fs_read (fun _ => Return None) (fun img _ => img) (fun _ => "0.00")
           [("file", mkFile "leaf.png" [137; 80; 78; 71])]
           (mkFile "leaf.png" [137; 80; 78; 71]) []).
  - reflexivity.
  - discriminate.
  - right. exists []. split; reflexivity.
Defined.

(** The endpoint run on the list file system: the bytes saved are the bytes
    analysed, whatever was stored under that path before. *)
Example upload_then_analyse :
  upload_file FileSystem fs_makedirs fs_save fs_read
    (fun data => Return (if Z.eqb (List.hd 0 data) 137
                         then Some [[mkPixel 20 100 100; mkPixel 60 200 200]]
                         else None))
    (fun img _ => img) (fun _ => "50.00")
    [("file", mkFile "leaf.png" [137; 80; 78; 71])]
    [("uploads/leaf.png", [0; 0])]
  = Return
      (mkResponse [("severity", "50.00% (High)"); ("image_url", "/uploads/leaf.png")] 200,
       [("uploads/leaf.png", [137; 80; 78; 71]); ("uploads/leaf.png", [0; 0])]).
Proof. vm_compute. reflexivity. Qed.

(** ** The level as a function of the percentage *)

(** The quotient of a positive integer below [2^63] by a positive integer is
    a finite number, at most [2^63]. *)
Lemma SFdiv_below_2_63 (a b : positive) :
  Zpos a < 2 ^ 63 ->
  sf_below 4503599627370496 11
    (SF64div (S754_finite false a 0) (S754_finite false b 0)).
Proof.
  intros Ha. unfold SF64div, SFdiv, SFdiv_core_binary. rewrite fexp64.
  cbn [xorb].
  set (d1 := Zdigits2 (Zpos a)). set (d2 := Zdigits2 (Zpos b)).
  assert (Hd1 : 0 < d1) by (apply (Zdigits2_gt (Zpos a) 0); simpl; lia).
  assert (Hd2 : 0 < d2) by (apply (Zdigits2_gt (Zpos b) 0); simpl; lia).
  assert (Hd163 : d1 <= 63) by (apply Zdigits2_le; lia).
  assert (Ha1 : 2 ^ (d1 - 1) <= Zpos a) by (apply Zdigits2_lower; lia).
  assert (Hb2 : Zpos b < 2 ^ d2) by (apply Zdigits2_upper; lia).
  set (e' := Z.min (Z.max (d1 + 0 - (d2 + 0) - 53) (-1074)) (0 - 0)).
  assert (He' : e' = Z.min (Z.max (d1 - d2 - 53) (-1074)) 0) by (unfold e'; lia).
  set (s := 0 - 0 - e').
  assert (Hs : 0 <= s) by (unfold s; lia).
  assert (Hps : 0 < 2 ^ s) by (apply Z.pow_pos_nonneg; lia).
  assert (Hm' : match s with Z.pos _ => Z.shiftl (Zpos a) s | 0 => Zpos a | Z.neg _ => 0 end
                = Zpos a * 2 ^ s).
  { destruct s eqn:Es; try lia. apply Z.shiftl_mul_pow2. lia. }
  rewrite Hm'.
  pose proof (Z_div_mod (Zpos a * 2 ^ s) (Zpos b) ltac:(lia)) as Hdiv.
  destruct (Z.div_eucl (Zpos a * 2 ^ s) (Zpos b)) as [q r].
  destruct Hdiv as [Hq Hr].
  assert (Hq0 : 0 <= q) by nia.
  apply binary_round_aux_below; try lia.
  - rewrite fexp64.
    destruct (Z.eq_dec e' (-1074)) as [|Hne]; [lia|].
    assert (Hk : 52 <= d1 - 1 + s - d2) by (unfold s; lia).
    assert (Hqk : 2 ^ (d1 - 1 + s - d2) <= q).
    { destruct (Z_lt_le_dec q (2 ^ (d1 - 1 + s - d2))) as [Hlt|]; [exfalso|assumption].
      assert (Hpow : 2 ^ (d1 - 1) * 2 ^ s = 2 ^ (d1 - 1 + s - d2) * 2 ^ d2).
      { rewrite <- !Z.pow_add_r by lia. f_equal. lia. }
      assert (2 ^ (d1 - 1 + s - d2) * 2 ^ d2 <= Zpos a * 2 ^ s).
      { rewrite <- Hpow. apply Z.mul_le_mono_nonneg_r; lia. }
      assert (0 < 2 ^ (d1 - 1 + s - d2)) by (apply Z.pow_pos_nonneg; lia).
      nia. }
    assert (d1 - 1 + s - d2 < Zdigits2 q) by (apply Zdigits2_gt; lia).
    unfold s in *. lia.
  - replace (11 - e') with (s + 11) by (unfold s; lia).
    rewrite Z.pow_add_r by lia.
    change (2 ^ 11) with 2048. change (2 ^ 63) with 9223372036854775808 in Ha.
    assert (q <= Zpos a * 2 ^ s) by nia.
    destruct (new_location (Zpos b) r); nia.
Qed.

(** Multiplying a number that is at most [2^(E+52)] by 100. *)
Lemma SFmul_100_below_gen (E : Z) (x : spec_float) :
  -1074 <= E + 6 <= 971 ->
  sf_below 4503599627370496 E x ->
  sf_below 7036874417766400 (E + 6)
    (SF64mul x (S754_finite false 7036874417766400 (-46))).
Proof.
  intros HE [->|[m [e [-> [Hb Hle]]]]]; [left; reflexivity|].
  unfold SF64mul, SFmul. cbn [xorb].
  apply bounded64 in Hb. destruct Hb as [Hcanon Hemax].
  assert (Hm53 : Zpos m < 2 ^ 53).
  { apply Z.lt_le_trans with (1 := Zdigits2_upper (Zpos m) ltac:(lia)).
    apply Z.pow_le_mono_r; lia. }
  assert (HeE : e <= E) by lia.
  assert (Hme : Zpos m <= 2 ^ (E - e + 52)).
  { destruct Hle as [Hlt|[-> Hle]].
    - apply Z.le_trans with (2 ^ 53); [lia | apply Z.pow_le_mono_r; lia].
    - replace (E - E + 52) with 52 by lia. exact Hle. }
  apply binary_round_aux_below; try lia.
  - rewrite fexp64.
    assert (52 < Zdigits2 (Zpos (m * 7036874417766400))).
    { apply Zdigits2_gt; [lia|]. change (2 ^ 52) with 4503599627370496. lia. }
    lia.
  - replace (E + 6 - (e + -46)) with (E - e + 52) by lia.
    rewrite Pos2Z.inj_mul. lia.
Qed.

Lemma SFcompare_not_nan (x y : spec_float) :
  SFcompare x y <> None -> x <> S754_nan /\ y <> S754_nan.
Proof.
  destruct x, y; simpl; intros H; split; try discriminate; congruence.
Qed.

Lemma SFcompare_some (x y : spec_float) :
  x <> S754_nan -> y <> S754_nan -> exists c, SFcompare x y = Some c.
Proof.
  destruct x, y; simpl; intros Hx Hy; try congruence; eexists; reflexivity.
Qed.

(** Among numbers, [p < a] fails only when [a <= p]. *)
Lemma ltb_false_leb_true (a p : float) :
  (0 <=? p)%float = true -> (a <=? a)%float = true ->
  (p <? a)%float = false -> (a <=? p)%float = true.
Proof.
  rewrite !leb_spec, ltb_spec. unfold SFleb, SFltb. intros Hp Ha Hlt.
  assert (Hpn : Prim2SF p <> S754_nan).
  { apply (SFcompare_not_nan (Prim2SF 0) (Prim2SF p)).
    destruct (SFcompare (Prim2SF 0) (Prim2SF p)); [discriminate|discriminate Hp]. }
  assert (Han : Prim2SF a <> S754_nan).
  { apply (SFcompare_not_nan (Prim2SF a) (Prim2SF a)).
    destruct (SFcompare (Prim2SF a) (Prim2SF a)); [discriminate|discriminate Ha]. }
  destruct (SFcompare_some _ _ Hpn Han) as [c Hc].
  rewrite (SFcompare_antisym (Prim2SF p) (Prim2SF a)), Hc. rewrite Hc in Hlt.
  destruct c; [reflexivity | discriminate | reflexivity].
Qed.

Lemma percentage_nonneg (a b : Z) :
  0 <= a < 2 ^ 63 -> 0 < b ->
  (0 <=? SF2Prim (SF64div (Z2SF a) (Z2SF b)) * 100)%float = true.
Proof.
  intros Ha Hb.
  assert (Hq : sf_below 4503599627370496 11 (SF64div (Z2SF a) (Z2SF b))).
  { destruct b as [|b|b]; try lia. destruct a as [|a|a]; try lia.
    - left. reflexivity.
    - apply SFdiv_below_2_63. lia. }
  assert (Hp : sf_below 7036874417766400 (11 + 6)
                 (Prim2SF (SF2Prim (SF64div (Z2SF a) (Z2SF b)) * 100)%float)).
  { rewrite mul_spec, Prim2SF_100.
    rewrite (Prim2SF_SF2Prim _ (sf_below_valid _ _ _ Hq)).
    apply SFmul_100_below_gen; [lia | exact Hq]. }
  rewrite leb_spec, Prim2SF_0. apply (sf_below_leb _ _ _ Hp).
Qed.

(** X6. On a leaf mask with a true pixel and an infected mask with fewer than
    [2^63] true pixels (as for every numpy array), the percentage is a number
    that is not negative (in particular it is not NaN), and each level
    stands for exactly one interval: "Low" for a percentage below 10,
    "Moderate" for one from 10 up to, not including, 30, "High" for one of
    at least 30.  No inclusion of the infected mask in the leaf mask is
    needed. *)
Theorem level_iff_percentage (leaf_mask infected_mask : ndarray) :
  has_true_pixel leaf_mask ->
  count_nonzero infected_mask < 2 ^ 63 ->
  exists r,
    calculate_severity leaf_mask infected_mask = Return r /\
    (0 <=? percentage r)%float = true /\
    (level r = "Low" <-> (percentage r <? 10)%float = true) /\
    (level r = "Moderate" <->
       (10 <=? percentage r)%float = true /\ (percentage r <? 30)%float = true) /\
    (level r = "High" <-> (30 <=? percentage r)%float = true).
Proof.
  intros Hleaf Hinf.
  pose proof (proj2 (count_nonzero_pos leaf_mask) Hleaf) as Hpos.
  pose proof (count_nonzero_nonneg infected_mask) as H0.
  rewrite calculate_severity_counts by lia. cbv zeta.
  eexists. split; [reflexivity|]. cbn [percentage level].
  pose proof (percentage_nonneg (count_nonzero infected_mask) (count_nonzero leaf_mask)
                ltac:(lia) Hpos) as Hnn.
  set (p := (SF2Prim (SF64div (Z2SF (count_nonzero infected_mask))
                              (Z2SF (count_nonzero leaf_mask))) * 100)%float) in *.
  split; [exact Hnn|].
  destruct (p <? 10)%float eqn:H10; [|destruct (p <? 30)%float eqn:H30].
  - pose proof (ltb_10_ltb_30 _ H10) as H30.
    split; [tauto|]. split.
    + split; [discriminate|]. intros [Hle _].
      rewrite (leb_true_ltb_false _ _ Hle) in H10. discriminate.
    + split; [discriminate|]. intros Hle.
      rewrite (leb_true_ltb_false _ _ Hle) in H30. discriminate.
  - pose proof (ltb_false_leb_true 10 p Hnn eq_refl H10) as Hle10.
    split; [split; discriminate|]. split; [tauto|].
    split; [discriminate|]. intros Hle.
    rewrite (leb_true_ltb_false _ _ Hle) in H30. discriminate.
  - pose proof (ltb_false_leb_true 30 p Hnn eq_refl H30) as Hle30.
    split; [split; discriminate|]. split; [|tauto].
    split; [discriminate|]. intros [_ H]. discriminate.
Qed.

Lemma level_iff_percentage_witness :
  exists r,
    calculate_severity [[1; 0]; [0; 0]] [[1; 1]; [1; 0]] = Return r /\
    (0 <=? percentage r)%float = true /\
    (level r = "Low" <-> (percentage r <? 10)%float = true) /\
    (level r = "Moderate" <->
       (10 <=? percentage r)%float = true /\ (percentage r <? 30)%float = true) /\
    (level r = "High" <-> (30 <=? percentage r)%float = true).
Proof.
  apply (level_iff_percentage [[1; 0]; [0; 0]] [[1; 1]; [1; 0]]).
  - exists 0%nat, 0%nat, 1. split; [reflexivity | lia].
  - vm_compute. reflexivity.
Defined.
